(** * emptty: session lifecycle (session.go) and issue printing (daemon.go)

    A shallow embedding of [src/session.go] and of the issue printing of
    [src/daemon.go] ([printIssue], [findUniqueIssueVars] and
    [evaluateIssueVars]), with the properties the specification states
    about them and further properties read off the code.

    Go values are modelled as follows: [int] as [Z]; [string] as [string]
    (as [list byte] for [printIssue], which indexes bytes); a nil
    pointer or nil interface as [None]; the user's environment map as a
    [gmap string string]; calls that leave the program (the operating
    system, the carrier implementations, the logging helpers) as fields of
    a record of answers, [World], or as events appended to a trace. *)

From Stdlib Require Import ZArith List Bool Ascii String Lia.
From Stdlib Require Import Strings.Byte.
From stdpp Require Import base tactics option gmap strings.

Local Open Scope string_scope.
Local Open Scope Z_scope.

(* ===================================================================== *)
(** * daemon.go: printIssue *)
(* ===================================================================== *)

(** A Go string is a sequence of bytes; [len] and slicing count bytes. *)
Definition gostring := list byte.

Definition len (s : gostring) : Z := Z.of_nat (List.length s).

(** Outcome of running a piece of Go code that may index out of range. *)
Inductive run (A : Type) : Type :=
| Done (a : A)      (* ran to completion *)
| Panic             (* runtime error: slice bounds out of range *)
| OutOfFuel.        (* the model's loop budget ran out *)
Arguments Done {A} a.
Arguments Panic {A}.
Arguments OutOfFuel {A}.

(** [s[lo:]]: Go panics unless [0 <= lo <= len(s)]. *)
Definition sliceFrom (s : gostring) (lo : Z) : option gostring :=
  if (0 <=? lo) && (lo <=? len s) then Some (drop (Z.to_nat lo) s) else None.

(** [s[:hi]]: Go panics unless [0 <= hi <= len(s)]. *)
Definition sliceTo (s : gostring) (hi : Z) : option gostring :=
  if (0 <=? hi) && (hi <=? len s) then Some (take (Z.to_nat hi) s) else None.

Definition newline : byte := x0a.

Fixpoint gostring_eqb (a b : gostring) : bool :=
  match a, b with
  | [], [] => true
  | x :: a', y :: b' => Byte.eqb x y && gostring_eqb a' b'
  | _, _ => false
  end.

(** The loop of [printIssue] (daemon.go, lines 91-93):
<<
    for issue[len(issue)-2:] == "\n\n" {
        issue = issue[:len(issue)-1]
    }
>>
    One unit of [fuel] pays for one evaluation of the loop condition. *)
Fixpoint trimLoop (fuel : nat) (issue : gostring) : run gostring :=
  match fuel with
  | O => OutOfFuel
  | S fuel' =>
      match sliceFrom issue (len issue - 2) with
      | None => Panic
      | Some tail =>
          if gostring_eqb tail [newline; newline] then
            match sliceTo issue (len issue - 1) with
            | None => Panic
            | Some issue' => trimLoop fuel' issue'
            end
          else Done issue
      end
  end.

(** The loop shortens [issue] by one byte per round, so [len(issue)]
    evaluations of the condition, and one more, always suffice. *)
Definition trimTrailingBlankLines (issue : gostring) : run gostring :=
  trimLoop (S (List.length issue)) issue.

(** What [printIssue] hands to [fmt.Print].  [readFile] is the content of
    the issue file ([None] when it does not exist or cannot be read),
    [evaluate] stands for
    [evaluateIssueVars(issue, findUniqueIssueVars(issue), strTTY)] and
    [revertColorEscaping] for the helper of that name. *)
Definition printIssue (readFile : option gostring)
    (evaluate revertColorEscaping : gostring -> gostring) : run (option gostring) :=
  match readFile with
  | None => Done None
  | Some bIssue =>
      match trimTrailingBlankLines (evaluate bIssue) with
      | Done issue => Done (Some (revertColorEscaping issue))
      | Panic => Panic
      | OutOfFuel => OutOfFuel
      end
  end.

Definition allNewlines (s : gostring) : Prop := Forall (fun b => b = newline) s.

(* ===================================================================== *)
(** * session.go: data *)
(* ===================================================================== *)

(** ** The Go string functions the session code calls *)

Fixpoint HasPrefix (s prefix : string) : bool :=
  match prefix, s with
  | EmptyString, _ => true
  | String _ _, EmptyString => false
  | String a prefix', String b s' => Ascii.eqb a b && HasPrefix s' prefix'
  end.

(** [strings.Contains(s, substr)] *)
Fixpoint Contains (s substr : string) : bool :=
  HasPrefix s substr ||
  match s with
  | EmptyString => false
  | String _ s' => Contains s' substr
  end.

(** [strings.Split(s, sep)] for a separator of one byte, the only use the
    session code makes of it: the pieces between consecutive separators,
    empty pieces included, and one empty piece for the empty string. *)
Fixpoint Split (s : string) (sep : ascii) : list string :=
  match s with
  | EmptyString => [EmptyString]
  | String c s' =>
      if Ascii.eqb c sep then EmptyString :: Split s' sep
      else match Split s' sep with
           | piece :: pieces => String c piece :: pieces
           | [] => [String c EmptyString]
           end
  end.

Definition space : ascii := " "%char.

(** ** Constants (session.go, lines 9-28) *)

Definition envXdgConfigHome := "XDG_CONFIG_HOME".
Definition envXdgRuntimeDir := "XDG_RUNTIME_DIR".
Definition envXdgSessionId := "XDG_SESSION_ID".
Definition envXdgSessionType := "XDG_SESSION_TYPE".
Definition envXdgSessionClass := "XDG_SESSION_CLASS".
Definition envXdgSeat := "XDG_SEAT".
Definition envHome := "HOME".
Definition envPwd := "PWD".
Definition envUser := "USER".
Definition envLogname := "LOGNAME".
Definition envXauthority := "XAUTHORITY".
Definition envDisplay := "DISPLAY".
Definition envShell := "SHELL".
Definition envLang := "LANG".
Definition envPath := "PATH".
Definition envDesktopSession := "DESKTOP_SESSION".
Definition envXdgSessDesktop := "XDG_SESSION_DESKTOP".
Definition envUid := "UID".

(** ** Collaborators' types

    The declarations of [enviroment], [sysuser], [desktop] and [config]
    are not part of the two source files; the records below carry the
    fields and method results that session.go reads. *)

(** Modelled from the spec: the declaration of the display-server family
    [enviroment] is missing.  The specification names two variants,
    compositor-embedded ([Wayland]) and display-server-separate ([Xorg]);
    [OtherEnv] stands for any further value of the type, which the
    [switch] of [startSession] has no case for. *)
Inductive enviroment : Type := Wayland | Xorg | OtherEnv.

Definition enviroment_eqb (a b : enviroment) : bool :=
  match a, b with
  | Wayland, Wayland | Xorg, Xorg | OtherEnv, OtherEnv => true
  | _, _ => false
  end.

(** An [error] value is represented by its message, [err.Error()]. *)
Definition error := string.

Record sysuser : Type := {
  username : string;
  homedir : string;
  uid : Z;
  gid : Z;
  strUid : string;       (* usr.strUid() *)
  getShell : string      (* usr.getShell() *)
}.

#[warnings="-register-all"]
Inductive desktop : Type := mkDesktop {
  name : string;
  env : enviroment;
  isUser : bool;
  loginShell : string;
  child : option desktop   (* nil or a pointer to the wrapped selection *)
}.

Record config : Type := {
  NoXdgFallback : bool;
  AlwaysDbusLaunch : bool;
  DbusLaunch : bool;
  XinitrcLaunch : bool;
  Lang : string;
  strTTY : string        (* conf.strTTY() *)
}.

(** The child-process descriptor, [*exec.Cmd]. *)
Record Cmd : Type := {
  Path : string;
  Args : list string;              (* arguments after the program name *)
  Uid : Z;
  Gid : Z;
  Dir : string;
  Env : gmap string string;
  Stderr : option string
}.

(** Modelled from the spec: [cmdAsUser] is missing.  By section 4.1 it
    "produces a not-yet-started child-process descriptor configured to
    execute with the target user's uid/gid, environment mapping, and
    working directory set to the user's home". *)
Definition cmdAsUser (usr : sysuser) (environ : gmap string string)
    (name : string) (args : list string) : Cmd :=
  {| Path := name; Args := args; Uid := uid usr; Gid := gid usr;
     Dir := homedir usr; Env := environ; Stderr := None |}.

Definition withStderr (c : Cmd) (f : string) : Cmd :=
  {| Path := Path c; Args := Args c; Uid := Uid c; Gid := Gid c;
     Dir := Dir c; Env := Env c; Stderr := Some f |}.

Definition withEnv (c : Cmd) (e : gmap string string) : Cmd :=
  {| Path := Path c; Args := Args c; Uid := Uid c; Gid := Gid c;
     Dir := Dir c; Env := e; Stderr := Stderr c |}.

(** The [session] interface (session.go, lines 33-37).  Its two
    implementations, [waylandSession] and [xorgSession], live in other
    files, so an implementation is a record of what its three methods
    answer.  [startCarrier] has no result in Go: it can only change the
    user's environment or, on the startup failure of section 4.5 (step 2),
    end the program ([None]). *)
Record session : Type := {
  startCarrier : gmap string string -> option (gmap string string);
  getCarrierPid : Z;
  finishCarrier : option error
}.

(** The accounting record returned by [addUtmpEntry]. *)
Record utmpEntry : Type := {
  ut_user : string;
  ut_pid : Z;
  ut_line : string;
  ut_host : string
}.

(** ** Program points at which the interrupt watcher may run

    [handleInterrupt] runs in its own goroutine.  The controller observes
    it only through the child process and through the two reads of
    [interrupted] (lines 117 and 122), so the model lets the watcher's body
    run atomically at one of four points, each standing for a stretch of
    the controller's statements. *)
Inductive YieldPoint : Type :=
| BeforeStart     (* lines 77-93: watcher spawned, child not yet started *)
| ChildRunning    (* lines 93-106: child started, Wait has not returned *)
| ChildExited     (* lines 106-117: Wait returned, flag not yet read *)
| BetweenChecks.  (* lines 117-122: between the two reads of the flag *)

Definition YieldPoint_eqb (a b : YieldPoint) : bool :=
  match a, b with
  | BeforeStart, BeforeStart | ChildRunning, ChildRunning
  | ChildExited, ChildExited | BetweenChecks, BetweenChecks => true
  | _, _ => false
  end.

(** ** The world outside the controller *)
Record World : Type := {
  defineSpecificEnvVariables : gmap string string -> gmap string string;
  osGetenvPath : string;                   (* os.Getenv(envPath) *)
  initialFiles : string -> bool;           (* fileExists, before the session *)
  MkdirAll : string -> option error;       (* os.MkdirAll(path, 0700) *)
  sessionType : enviroment -> string;      (* d.env.sessionType() *)
  envString : enviroment -> string;        (* d.env.string() *)
  waylandSession : session;
  xorgSession : session;
  getStrExec : desktop -> string * bool;   (* d.getStrExec() *)
  initSessionErrorLogger : string + error; (* the log file, or an error *)
  sessionStart : option error;             (* session.Start() *)
  childPid : Z;                            (* session.Process.Pid *)
  sessionWait : option error;              (* session.Wait() *)
  sigint : option YieldPoint               (* when the interrupt arrives *)
}.

(* ===================================================================== *)
(** * session.go: state, effects and the error-handling helpers *)
(* ===================================================================== *)

(** [session.Process]: nil until [Start] succeeds. *)
Inductive Process : Type :=
| NotStarted
| Running (pid : Z)
| Finished (pid : Z).

(** The four places where session.go hands an error to [handleErr] or
    [handleStrErr]. *)
Inductive FailureSite : Type :=
| MkdirFailure    (* line 163 *)
| StartFailure    (* line 95 *)
| RuntimeExit     (* line 119 *)
| CarrierExit.    (* line 124 *)

(** What the controller does to the outside, in the order it does it. *)
Inductive Event : Type :=
| EvLog (msg : string)                        (* logPrint *)
| EvMkdirAll (path : string)
| EvChown (path : string) (uid gid : Z)
| EvChdir (path : string)
| EvStartCarrier
| EvFinishCarrier
| EvDbusLaunch
| EvDbusInterrupt
| EvSpawnWatcher                              (* go handleInterrupt(...) *)
| EvOpenErrLog (file : string)
| EvCloseErrLog
| EvStart (cmd : Cmd)                         (* session.Start() *)
| EvWait                                      (* session.Wait() *)
| EvAddUtmp (e : utmpEntry)                   (* addUtmpEntry *)
| EvEndUtmp (e : utmpEntry)                   (* endUtmpEntry *)
| EvSignal (pid : Z)                          (* cmd.Process.Signal(os.Interrupt) *)
| EvFailure (site : FailureSite) (msg : string). (* shown to the user *)

Record State : Type := {
  environ : gmap string string;   (* s.usr.env *)
  dbus : bool;                    (* s.dbus != nil *)
  interrupted : bool;             (* the package variable of that name *)
  files : string -> bool;         (* which paths exist *)
  proc : Process;                 (* session.Process *)
  trace : list Event              (* newest event first *)
}.

(** How a run ends when it does not return. *)
Inductive Abort : Type :=
| Exited            (* the program was ended by handleErr *)
| Panicked          (* nil dereference in the controller *)
| WatcherPanicked.  (* nil dereference in the watcher goroutine *)

Inductive Res (A : Type) : Type :=
| Val (a : A)
| Stop (o : Abort).
Arguments Val {A} a.
Arguments Stop {A} o.

(** State and early exit, threaded through every call. *)
Definition M (A : Type) : Type := State -> State * Res A.

Definition ret {A} (a : A) : M A := fun st => (st, Val a).

Definition bind {A B} (m : M A) (k : A -> M B) : M B :=
  fun st =>
    match m st with
    | (st', Val a) => k a st'
    | (st', Stop o) => (st', Stop o)
    end.

Definition abort {A} (o : Abort) : M A := fun st => (st, Stop o).

Declare Scope go_scope.
Delimit Scope go_scope with go.
Notation "x <- m ;; k" := (bind m (fun x => k))
  (at level 100, m at next level, right associativity) : go_scope.
Notation "m ;; k" := (bind m (fun _ => k))
  (at level 100, right associativity) : go_scope.
Local Open Scope go_scope.

Definition gets {A} (f : State -> A) : M A := fun st => (st, Val (f st)).

Definition emit (e : Event) : M unit := fun st =>
  ({| environ := environ st; dbus := dbus st; interrupted := interrupted st;
      files := files st; proc := proc st; trace := e :: trace st |}, Val tt).

Definition withEnviron (e : gmap string string) (st : State) : State :=
  {| environ := e; dbus := dbus st; interrupted := interrupted st;
     files := files st; proc := proc st; trace := trace st |}.

Definition setEnviron (e : gmap string string) : M unit := fun st =>
  (withEnviron e st, Val tt).

Definition setDbus (b : bool) : M unit := fun st =>
  ({| environ := environ st; dbus := b; interrupted := interrupted st;
      files := files st; proc := proc st; trace := trace st |}, Val tt).

Definition setInterrupted (b : bool) : M unit := fun st =>
  ({| environ := environ st; dbus := dbus st; interrupted := b;
      files := files st; proc := proc st; trace := trace st |}, Val tt).

Definition setFiles (f : string -> bool) : M unit := fun st =>
  ({| environ := environ st; dbus := dbus st; interrupted := interrupted st;
      files := f; proc := proc st; trace := trace st |}, Val tt).

Definition setProc (p : Process) : M unit := fun st =>
  ({| environ := environ st; dbus := dbus st; interrupted := interrupted st;
      files := files st; proc := p; trace := trace st |}, Val tt).

(** [defer]: [cleanup] runs when [body] returns and when the controller's
    own goroutine panics, not when the program is ended underneath it. *)
Definition deferred {A} (cleanup : M unit) (body : M A) : M A := fun st =>
  match body st with
  | (st', Stop Exited) => (st', Stop Exited)
  | (st', Stop WatcherPanicked) => (st', Stop WatcherPanicked)
  | (st', r) => (fst (cleanup st'), r)
  end.

Definition logPrint (msg : string) : M unit := emit (EvLog msg).

(** Modelled from the spec: the [sysuser] methods [getenv], [setenv] and
    [setenvIfEmpty] are missing.  The environment is a "mapping
    (string->string, keys unique)"; an absent key reads as the empty
    string, [setenv] overwrites, and [setenvIfEmpty] is the "set only if
    currently empty" of section 4.5. *)
Definition lookupenv (e : gmap string string) (key : string) : string :=
  default "" (e !! key).

Definition getenv (key : string) : M string :=
  gets (fun st => lookupenv (environ st) key).

Definition setenv (key value : string) : M unit :=
  e <- gets environ ;; setEnviron (<[key := value]> e).

Definition setenvIfEmpty (key value : string) : M unit :=
  cur <- getenv key ;;
  if String.eqb cur "" then setenv key value else ret tt.

Definition fileExists (path : string) : M bool :=
  gets (fun st => files st path).

(** Modelled from the spec: [handleErr] and [handleStrErr] are missing.
    By section 7 a startup error is "fatal to the session attempt" and is
    "reported via logging sink and via a generic user-visible failure
    message"; a nil error is no error.  [site] records which call of the
    source handed the error over. *)
Definition handleErr (site : FailureSite) (err : option error) : M unit :=
  match err with
  | None => ret tt
  | Some msg => emit (EvFailure site msg) ;; abort Exited
  end.

Definition handleStrErr (site : FailureSite) (msg : string) : M unit :=
  handleErr site (Some msg).

(* ===================================================================== *)
(** * session.go: the controller *)
(* ===================================================================== *)

Section Controller.

Context (w : World) (usr : sysuser) (d : desktop) (conf : config).

(** The [switch] of [startSession] (lines 52-57): the embedded [session]
    stays nil when no case matches. *)
Definition selectSession : option session :=
  match env d with
  | Wayland => Some (waylandSession w)
  | Xorg => Some (xorgSession w)
  | OtherEnv => None
  end.

(** Calls through the embedded interface; a nil interface panics. *)
Definition callStartCarrier : M unit :=
  match selectSession with
  | None => abort Panicked
  | Some s =>
      emit EvStartCarrier ;;
      e <- gets environ ;;
      match startCarrier s e with
      | None => abort Exited
      | Some e' => setEnviron e'
      end
  end.

Definition callGetCarrierPid : M Z :=
  match selectSession with
  | None => abort Panicked
  | Some s => ret (getCarrierPid s)
  end.

Definition callFinishCarrier : M (option error) :=
  match selectSession with
  | None => abort Panicked
  | Some s => emit EvFinishCarrier ;; ret (finishCarrier s)
  end.

(** [os.MkdirAll(path, 0700)] *)
Definition osMkdirAll (path : string) : M (option error) :=
  emit (EvMkdirAll path) ;;
  match MkdirAll w path with
  | Some err => ret (Some err)
  | None =>
      f <- gets files ;;
      setFiles (fun p => if String.eqb p path then true else f p) ;;
      ret None
  end.

(** The block "create XDG folder" of [defineEnvironment] (lines 159-172). *)
Definition createXdgFolder : M unit :=
  if negb (NoXdgFallback conf) then
    dir <- getenv envXdgRuntimeDir ;;
    found <- fileExists dir ;;
    if negb found then
      dir <- getenv envXdgRuntimeDir ;;
      err <- osMkdirAll dir ;;
      handleErr MkdirFailure err ;;
      dir <- getenv envXdgRuntimeDir ;;
      emit (EvChown dir (uid usr) (gid usr)) ;;
      logPrint "Created XDG folder"
    else
      logPrint "XDG folder already exists, no need to create"
  else ret tt.

(** Prepares environment and env variables for authorized user
    (lines 129-175). *)
Definition defineEnvironment : M unit :=
  e <- gets environ ;;
  setEnviron (defineSpecificEnvVariables w e) ;;
  setenv envHome (homedir usr) ;;
  setenv envPwd (homedir usr) ;;
  setenv envUser (username usr) ;;
  setenv envLogname (username usr) ;;
  setenv envUid (strUid usr) ;;
  (if negb (NoXdgFallback conf) then
     setenvIfEmpty envXdgConfigHome (homedir usr ++ "/.config") ;;
     setenvIfEmpty envXdgRuntimeDir ("/run/user/" ++ strUid usr) ;;
     setenvIfEmpty envXdgSeat "seat0" ;;
     setenv envXdgSessionClass "user"
   else ret tt) ;;
  setenv envShell (getShell usr) ;;
  setenvIfEmpty envLang (Lang conf) ;;
  setenvIfEmpty envPath (osGetenvPath w) ;;
  (if negb (NoXdgFallback conf) then
     if negb (String.eqb (name d) "") then
       setenv envDesktopSession (name d) ;;
       setenv envXdgSessDesktop (name d)
     else
       match child d with
       | Some c =>
           if negb (String.eqb (name c) "") then
             setenv envDesktopSession (name c) ;;
             setenv envXdgSessDesktop (name c)
           else ret tt
       | None => ret tt
       end
   else ret tt) ;;
  logPrint "Defined Environment" ;;
  createXdgFolder ;;
  pwd <- getenv envPwd ;;
  emit (EvChdir pwd).

(** Gets preferred login shell (lines 200-205). *)
Definition getLoginShell : string :=
  if negb (String.eqb (loginShell d) "") then loginShell d else "/bin/sh".

(** Prepares command for starting GUI (lines 178-197). *)
Definition prepareGuiCommand : M (Cmd * string) :=
  let strExec := fst (getStrExec w d) in
  let allowStartupPrefix := snd (getStrExec w d) in
  let startScript := isUser d && negb allowStartupPrefix in
  xinitrc <- fileExists (homedir usr ++ "/.xinitrc") ;;
  p <- (if allowStartupPrefix && XinitrcLaunch conf
           && enviroment_eqb (env d) Xorg
           && negb (Contains strExec ".xinitrc") && xinitrc
        then ret (true, homedir usr ++ "/.xinitrc " ++ strExec)
        else if allowStartupPrefix && DbusLaunch conf
                && negb (Contains strExec "dbus-launch")
        then setDbus true ;; ret (startScript, strExec)
        else ret (startScript, strExec)) ;;
  let startScript := fst p in
  let strExec := snd p in
  e <- gets environ ;;
  let cmd := if startScript
             then cmdAsUser usr e getLoginShell (Split strExec space)
             else cmdAsUser usr e strExec [] in
  ret (cmd, strExec).

(** Catch interrupt signal chan and interrupts Cmd (lines 208-214), from
    the moment the channel delivers.  [Signal] on a nil [Process]
    dereferences it; on a finished process it returns an error, which the
    code drops.  The final [cmd.Wait()] only blocks the watcher. *)
Definition handleInterrupt : M unit :=
  setInterrupted true ;;
  logPrint "Caught interrupt signal" ;;
  p <- gets proc ;;
  match p with
  | NotStarted => abort WatcherPanicked
  | Running pid => emit (EvSignal pid)
  | Finished _ => ret tt
  end.

(** The watcher gets to run at [p] when that is where the signal arrives. *)
Definition yield (p : YieldPoint) : M unit :=
  match sigint w with
  | Some q => if YieldPoint_eqb p q then handleInterrupt else ret tt
  | None => ret tt
  end.

(** [session.Start()] *)
Definition callStart (cmd : Cmd) : M (option error) :=
  emit (EvStart cmd) ;;
  match sessionStart w with
  | Some err => ret (Some err)
  | None => setProc (Running (childPid w)) ;; ret None
  end.

(** [session.Process.Pid] *)
Definition processPid : M Z :=
  p <- gets proc ;;
  match p with
  | NotStarted => abort Panicked
  | Running pid | Finished pid => ret pid
  end.

(** [session.Wait()] *)
Definition callWait : M (option error) :=
  emit EvWait ;;
  p <- gets proc ;;
  match p with
  | NotStarted => ret (Some "exec: not started")
  | Running pid | Finished pid =>
      setProc (Finished pid) ;; ret (sessionWait w)
  end.

Definition addUtmpEntry (username : string) (pid : Z) (ttyNo xdisplay : string)
    : M utmpEntry :=
  let e := {| ut_user := username; ut_pid := pid;
              ut_line := ttyNo; ut_host := xdisplay |} in
  emit (EvAddUtmp e) ;; ret e.

Definition endUtmpEntry (e : utmpEntry) : M unit := emit (EvEndUtmp e).

(** Lines 87-125 of [start]: everything that runs after the deferred
    [Close] of the error log has been registered. *)
Definition supervise (session : Cmd) (strExec : string) : M unit :=
  hasDbus <- gets dbus ;;
  (if hasDbus then emit EvDbusLaunch else ret tt) ;;
  logPrint ("Starting " ++ strExec) ;;
  e <- gets environ ;;
  let session := withEnv session e in
  yield BeforeStart ;;
  err <- callStart session ;;
  match err with
  | Some _ => callFinishCarrier ;; handleErr StartFailure err
  | None => ret tt
  end ;;
  pid <- callGetCarrierPid ;;
  pid <- (if pid <=? 0 then processPid else ret pid) ;;
  xdisplay <- getenv envDisplay ;;
  utmpEntry <- addUtmpEntry (username usr) pid (strTTY conf) xdisplay ;;
  logPrint "Added utmp entry" ;;
  yield ChildRunning ;;
  err <- callWait ;;
  hasDbus <- gets dbus ;;
  (if hasDbus then emit EvDbusInterrupt else ret tt) ;;
  carrierErr <- callFinishCarrier ;;
  endUtmpEntry utmpEntry ;;
  logPrint "Ended utmp entry" ;;
  yield ChildExited ;;
  flag <- gets interrupted ;;
  match negb flag, err with
  | true, Some msg =>
      logPrint (strExec ++ " finished with error: " ++ msg
                ++ ". For more details see `SESSION_ERROR_LOGGING` in configuration.") ;;
      handleStrErr RuntimeExit
        (envString w (env d) ++ " session finished with error, please check logs")
  | _, _ => ret tt
  end ;;
  yield BetweenChecks ;;
  flag <- gets interrupted ;;
  match negb flag, carrierErr with
  | true, Some msg =>
      logPrint (envString w (env d) ++ " finished with error: " ++ msg) ;;
      handleStrErr CarrierExit
        (envString w (env d) ++ " finished with error, please check logs")
  | _, _ => ret tt
  end.

(** [defer sessionErrLog.Close()] (line 82), registered only when the error
    log could be opened. *)
Definition closeSessionErrLog : M unit :=
  match initSessionErrorLogger w with
  | inl _ => emit EvCloseErrLog
  | inr _ => ret tt
  end.

(** Performs common start of session (lines 63-126). *)
Definition start : M unit :=
  defineEnvironment ;;
  callStartCarrier ;;
  (if negb (NoXdgFallback conf)
   then setenv envXdgSessionType (sessionType w (env d)) else ret tt) ;;
  (if AlwaysDbusLaunch conf then setDbus true else ret tt) ;;
  p <- prepareGuiCommand ;;
  let session := fst p in
  let strExec := snd p in
  emit EvSpawnWatcher ;;
  session <- match initSessionErrorLogger w with
             | inl sessionErrLog =>
                 emit (EvOpenErrLog sessionErrLog) ;;
                 ret (withStderr session sessionErrLog)
             | inr sessionErrLogErr =>
                 logPrint sessionErrLogErr ;; ret session
             end ;;
  deferred closeSessionErrLog (supervise session strExec).

(** The state in which [startSession] finds the process: the environment
    map of [usr] as the caller filled it, no bus launcher, the flag at its
    zero value, no child. *)
Definition initialState (incoming : gmap string string) : State :=
  {| environ := incoming; dbus := false; interrupted := false;
     files := initialFiles w; proc := NotStarted; trace := [] |}.

(** Starts user's session (lines 49-60). *)
Definition startSession (incoming : gmap string string) : State * Res unit :=
  start (initialState incoming).

End Controller.

(** ** Reading a finished run *)

(** The events in the order they happened. *)
Definition history (r : State * Res unit) : list Event := rev (trace (fst r)).

Definition outcome (r : State * Res unit) : Res unit := snd r.

Definition isAddUtmp (e : Event) : bool :=
  match e with EvAddUtmp _ => true | _ => false end.
Definition isEndUtmp (e : Event) : bool :=
  match e with EvEndUtmp _ => true | _ => false end.
Definition isFinishCarrier (e : Event) : bool :=
  match e with EvFinishCarrier => true | _ => false end.
Definition isStart (e : Event) : bool :=
  match e with EvStart _ => true | _ => false end.
Definition isExitFailure (e : Event) : bool :=
  match e with
  | EvFailure RuntimeExit _ | EvFailure CarrierExit _ => true
  | _ => false
  end.
Definition isLedger (e : Event) : bool := isAddUtmp e || isEndUtmp e.

(** How often an event of the kind [c] occurred. *)
Definition tally (c : Event -> bool) (r : State * Res unit) : nat :=
  List.length (List.filter c (trace (fst r))).

(** The events of the supervised part of a session: everything except
    what the preparation (lines 64-85) does. *)
Definition isCore (e : Event) : bool :=
  match e with
  | EvLog _ | EvMkdirAll _ | EvChown _ _ _ | EvChdir _ | EvStartCarrier
  | EvSpawnWatcher | EvOpenErrLog _ | EvFailure MkdirFailure _ => false
  | _ => true
  end.

(** A state in which the supervised part has not begun. *)
Definition pristine (st : State) : Prop :=
  List.filter isCore (trace st) = [] /\ interrupted st = false /\ proc st = NotStarted.

(** A computation that leaves the supervised part untouched. *)
Definition quiet {A} (m : M A) : Prop :=
  forall st, pristine st -> pristine (fst (m st)).

(** A computation that returns and at most rewrites the environment map. *)
Definition environOnly {A} (m : M A) : Prop :=
  forall st, exists e a, m st = (withEnviron e st, Val a).

(** A computation that leaves the variable [key] as it found it. *)
Definition keeps {A} (key : string) (m : M A) : Prop :=
  forall st, environ (fst (m st)) !! key = environ st !! key.

(** The variables that the policy sets only as a fallback. *)
Definition fallbackVariables : list string :=
  [envXdgConfigHome; envXdgRuntimeDir; envXdgSeat; envXdgSessionClass;
   envDesktopSession; envXdgSessDesktop; envXdgSessionType].

(** The interrupt has been delivered, and [interrupted] set, by the time
    the controller reads the flag for the first time (line 117). *)
Definition interruptedBeforeEvaluation (w : World) : Prop :=
  sigint w = Some BeforeStart \/ sigint w = Some ChildRunning \/
  sigint w = Some ChildExited.

(* ===================================================================== *)
(** * Sample sessions *)
(* ===================================================================== *)

Definition alice : sysuser :=
  {| username := "alice"; homedir := "/home/alice"; uid := 1000; gid := 1000;
     strUid := "1000"; getShell := "/bin/bash" |}.

Definition tty2 (noXdgFallback xinitrcLaunch : bool) : config :=
  {| NoXdgFallback := noXdgFallback; AlwaysDbusLaunch := false;
     DbusLaunch := false; XinitrcLaunch := xinitrcLaunch;
     Lang := "en_US.UTF-8"; strTTY := "tty2" |}.

Definition compositor : desktop := mkDesktop "sway" Wayland false "" None.
Definition windowManager : desktop := mkDesktop "i3" Xorg false "" None.
Definition strayFamily : desktop := mkDesktop "odd" OtherEnv false "" None.

Definition carrier (pid : Z) (stop : option error) : session :=
  {| startCarrier := fun e => Some e; getCarrierPid := pid; finishCarrier := stop |}.

(** A machine on which the paths in [present] exist, [MkdirAll] answers
    [mkdir], the selected command line is [exec], the child starts and
    exits as [started] and [exited] say, the display server's teardown
    answers [stopped], and the interrupt arrives at [sig]. *)
Definition machine (present : list string) (mkdir : option error)
    (exec : string * bool) (started exited stopped : option error)
    (sig : option YieldPoint) : World :=
  {| defineSpecificEnvVariables := fun e => e;
     osGetenvPath := "/usr/bin:/bin";
     initialFiles := fun p => existsb (String.eqb p) present;
     MkdirAll := fun _ => mkdir;
     sessionType := fun e => match e with Wayland => "wayland" | _ => "x11" end;
     envString := fun e => match e with Wayland => "Wayland" | _ => "Xorg" end;
     waylandSession := carrier 0 None;
     xorgSession := carrier 311 stopped;
     getStrExec := fun _ => exec;
     initSessionErrorLogger := inr "session error log is off";
     sessionStart := started;
     childPid := 4242;
     sessionWait := exited;
     sigint := sig |}.

(** Nothing exists yet and every call succeeds. *)
Definition bareMachine : World :=
  machine [] None ("sway", true) None None None None.

(** The runtime directory cannot be created. *)
Definition readOnlyMachine : World :=
  machine [] (Some "mkdir /run/user/1000: read-only file system")
    ("sway", true) None None None None.

(** An X session whose user has a [.xinitrc]. *)
Definition xinitrcMachine : World :=
  machine ["/home/alice/.xinitrc"; "/run/user/1000"] None
    ("i3", true) None None None None.

(** A selection whose command line admits no startup prefix. *)
Definition rawMachine : World :=
  machine ["/run/user/1000"] None ("weston --tty 2", false) None None None None.

(** The child is interrupted while it runs and exits with an error; the
    display server's teardown fails as well. *)
Definition interruptedMachine : World :=
  machine ["/run/user/1000"] None ("i3", true) None
    (Some "signal: interrupt") (Some "exit status 1") (Some ChildRunning).

(** The same session without an interrupt. *)
Definition failingMachine : World :=
  machine ["/run/user/1000"] None ("i3", true) None
    (Some "signal: interrupt") (Some "exit status 1") None.

(* ===================================================================== *)
(** * daemon.go: the issue file's escape sequences *)
(* ===================================================================== *)

Definition bindRun {A B} (m : run A) (k : A -> run B) : run B :=
  match m with
  | Done a => k a
  | Panic => Panic
  | OutOfFuel => OutOfFuel
  end.

Declare Scope run_scope.
Delimit Scope run_scope with run.
Notation "x <- m ;; k" := (bindRun m (fun x => k))
  (at level 100, m at next level, right associativity) : run_scope.

Definition backslash : byte := x5c.
Definition lbrace : byte := x7b.
Definition rbrace : byte := x7d.

(** [s[i]]: Go panics unless [0 <= i < len(s)]. *)
Definition byteAt (s : gostring) (i : Z) : run byte :=
  if (0 <=? i) && (i <? len s) then
    match s !! Z.to_nat i with
    | Some b => Done b
    | None => Panic
    end
  else Panic.

(** IssueVariable defines list of all escape sequences found in issue file
    (daemon.go, lines 18-22). *)
Record issueVariable : Type := {
  issue : gostring;
  char : byte;
  arg : gostring
}.

(** Modelled from the spec: the helper [contains] is missing.  The source
    calls the function that uses it "Finds all unique issue escape
    sequences": [contains] tells whether the slice holds the string. *)
Definition contains (l : list gostring) (s : gostring) : bool :=
  existsb (gostring_eqb s) l.

(** The local variables of [findUniqueIssueVars] (lines 102-108). *)
Record scan : Type := {
  result : list issueVariable;
  knownIssues : list gostring;
  saveData : bool;
  buffer : gostring;
  varName : byte;
  argBuilder : gostring
}.

Definition scanStart : scan :=
  {| result := []; knownIssues := []; saveData := false; buffer := [];
     varName := x00; argBuilder := [] |}.

Section FindUniqueIssueVars.

Local Open Scope run_scope.
Local Open Scope list_scope.

(** The condition of line 128, evaluated left to right as Go does:
<<
    i == (len(issue)-1) ||
    (i < len(issue) && i > 0 && issue[i-1] == '\\' && issue[i+1] != '{') ||
    b == '}'
>> *)
Definition sequenceEnds (text : gostring) (i : Z) (b : byte) : run bool :=
  if i =? len text - 1 then Done true
  else
    short <- (if (i <? len text) && (0 <? i) then
                prev <- byteAt text (i - 1) ;;
                if Byte.eqb prev backslash then
                  next <- byteAt text (i + 1) ;;
                  Done (negb (Byte.eqb next lbrace))
                else Done false
              else Done false) ;;
    if short then Done true else Done (Byte.eqb b rbrace).

(** Lines 113-117: a backslash starts a new sequence. *)
Definition startSequence (b : byte) (st : scan) : scan :=
  if Byte.eqb b backslash
  then {| result := result st; knownIssues := knownIssues st;
          saveData := true; buffer := []; varName := varName st;
          argBuilder := [] |}
  else st.

(** Lines 120-126: the byte after the backslash names the variable, later
    bytes other than braces and backslashes are its argument. *)
Definition noteByte (text : gostring) (i : Z) (b : byte) (st : scan) : run scan :=
  if 0 <? i then
    prev <- byteAt text (i - 1) ;;
    if Byte.eqb prev backslash then
      Done {| result := result st; knownIssues := knownIssues st;
              saveData := saveData st; buffer := buffer st;
              varName := b; argBuilder := argBuilder st |}
    else if negb (Byte.eqb b lbrace) && negb (Byte.eqb b rbrace)
            && negb (Byte.eqb b backslash) then
      Done {| result := result st; knownIssues := knownIssues st;
              saveData := saveData st; buffer := buffer st;
              varName := varName st; argBuilder := argBuilder st ++ [b] |}
    else Done st
  else Done st.

(** Line 127: [buffer.WriteByte(b)]. *)
Definition writeByte (b : byte) (st : scan) : scan :=
  {| result := result st; knownIssues := knownIssues st;
     saveData := saveData st; buffer := buffer st ++ [b];
     varName := varName st; argBuilder := argBuilder st |}.

(** Lines 129-134: the finished sequence is recorded unless it is known
    already, and collecting stops. *)
Definition collect (st : scan) : scan :=
  let st :=
    if negb (contains (knownIssues st) (buffer st))
    then {| result := result st
                      ++ [{| issue := buffer st; char := varName st;
                             arg := argBuilder st |}];
            knownIssues := knownIssues st ++ [buffer st];
            saveData := saveData st; buffer := buffer st;
            varName := varName st; argBuilder := argBuilder st |}
    else st in
  {| result := result st; knownIssues := knownIssues st;
     saveData := false; buffer := buffer st;
     varName := varName st; argBuilder := argBuilder st |}.

(** One round of the loop of [findUniqueIssueVars] (lines 111-136). *)
Definition scanStep (text : gostring) (i : Z) (st : scan) : run scan :=
  b <- byteAt text i ;;
  let st := startSequence b st in
  if saveData st then
    st <- noteByte text i b st ;;
    let st := writeByte b st in
    ends <- sequenceEnds text i b ;;
    if ends then Done (collect st) else Done st
  else Done st.

(** [for i := 0; i < len(issue); i++]: [n] rounds are left, the next one
    at index [i]. *)
Fixpoint scanFrom (text : gostring) (n : nat) (i : Z) (st : scan) : run scan :=
  match n with
  | O => Done st
  | S n' =>
      st' <- scanStep text i st ;;
      scanFrom text n' (i + 1) st'
  end.

(** Finds all unique issue escape sequences (lines 101-140). *)
Definition findUniqueIssueVars (text : gostring) : run (list issueVariable) :=
  st <- scanFrom text (List.length text) 0 scanStart ;;
  Done (result st).

End FindUniqueIssueVars.

Definition notBrace (b : byte) : bool :=
  negb (Byte.eqb b lbrace) && negb (Byte.eqb b rbrace).

(** [s] occurs in [text] as a run of consecutive bytes. *)
Definition occursIn (s text : gostring) : Prop :=
  exists before after, text = (before ++ s ++ after)%list.

Definition bytes (s : string) : gostring := list_byte_of_string s.

(** What holds of a sequence under collection, or collected: it starts
    with its only backslash, [name] is the byte after it, and [args] are
    the bytes after that, braces left out. *)
Definition wellFormed (sequence : gostring) (name : byte) (args : gostring) : Prop :=
  head sequence = Some backslash /\
  Forall (fun b => b <> backslash) (tail sequence) /\
  (forall c rest, sequence = backslash :: c :: rest -> name = c) /\
  args = List.filter notBrace (drop 2 sequence).

(** The loop invariant of [findUniqueIssueVars] before round [k]. *)
Definition scanInv (text : gostring) (k : nat) (st : scan) : Prop :=
  map issue (result st) = knownIssues st /\
  NoDup (knownIssues st) /\
  Forall (fun v => occursIn (issue v) text /\ wellFormed (issue v) (char v) (arg v))
    (result st) /\
  (saveData st = true ->
   wellFormed (buffer st) (varName st) (argBuilder st) /\
   exists before, take k text = (before ++ buffer st)%list).

(** The part of the invariant that speaks of the recorded sequences. *)
Definition recordsOK (text : gostring) (st : scan) : Prop :=
  map issue (result st) = knownIssues st /\
  NoDup (knownIssues st) /\
  Forall (fun v => occursIn (issue v) text /\ wellFormed (issue v) (char v) (arg v))
    (result st).

(* ===================================================================== *)
(** * daemon.go: evaluating the escape sequences *)
(* ===================================================================== *)

(** What [evaluateIssueVars] asks for the text of a variable.  The helpers
    are not part of [daemon.go]; each constructor stands for one call:
    [runSimpleCmd(name, args...)], [getCurrentTTYName(strTTY, false)],
    [getDnsDomainName()], [getOsReleaseValue(arg)] and
    [getIpAddress(arg, char)]. *)
Inductive issueSource : Type :=
| SimpleCmd (name : string) (args : list string)
| CurrentTTYName (strTTY : string) (fullname : bool)
| DnsDomainName
| OsReleaseValue (key : gostring)
| IpAddress (interface : gostring) (version : byte).

(** The switch of lines 154-177: the helper asked for a variable, [None]
    for the default branch ([processed = false]). *)
Definition issueOutput (issueVar : issueVariable) (strTTY : string)
    : option issueSource :=
  match char issueVar with
  | "d"%byte => Some (SimpleCmd "date" [])
  | "l"%byte => Some (CurrentTTYName strTTY false)
  | "m"%byte => Some (SimpleCmd "uname" ["-m"])
  | "n"%byte => Some (SimpleCmd "uname" ["-n"])
  | "O"%byte => Some DnsDomainName
  | "r"%byte => Some (SimpleCmd "uname" ["-r"])
  | "s"%byte => Some (SimpleCmd "uname" ["-s"])
  | "S"%byte => Some (OsReleaseValue (arg issueVar))
  | "t"%byte => Some (SimpleCmd "date" ["+%T"])
  | "4"%byte | "6"%byte => Some (IpAddress (arg issueVar) (char issueVar))
  | _ => None
  end.

(** The comparison handed to [sort.Slice] on lines 146-148. *)
Definition longerArg (a b : issueVariable) : bool := len (arg b) <? len (arg a).

Section EvaluateIssueVars.

(** The answer of the helper asked in round [n] of the loop; two rounds
    may ask the same helper and get different answers. *)
Variable ask : nat -> issueSource -> gostring.

(** [strings.ReplaceAll] and [sort.Slice] of the Go library. *)
Variable ReplaceAll : gostring -> gostring -> gostring -> gostring.
Variable sortSlice :
  (issueVariable -> issueVariable -> bool) -> list issueVariable -> list issueVariable.

Variable revertColorEscaping : gostring -> gostring.

(** The loop of lines 150-182, round [n] next. *)
Fixpoint evaluateLoop (n : nat) (issueVars : list issueVariable) (strTTY : string)
    (result : gostring) : gostring :=
  match issueVars with
  | [] => result
  | issueVar :: rest =>
      let result :=
        match issueOutput issueVar strTTY with
        | Some source => ReplaceAll result (issue issueVar) (ask n source)
        | None => result
        end in
      evaluateLoop (S n) rest strTTY result
  end.

(** Evaluates outputs for all known escape sequences and return replaced
    issue (lines 143-185). *)
Definition evaluateIssueVars (issue : gostring) (issueVars : list issueVariable)
    (strTTY : string) : gostring :=
  evaluateLoop 0 (sortSlice longerArg issueVars) strTTY issue.

(** [printIssue] (lines 84-98) with line 89 written out: what it hands to
    [fmt.Print] for the content [readFile] of the issue file. *)
Definition printedIssue (readFile : option gostring) (strTTY : string)
    : run (option gostring) :=
  match readFile with
  | None => Done None
  | Some bIssue =>
      bindRun (findUniqueIssueVars bIssue) (fun issueVars =>
      bindRun (trimTrailingBlankLines (evaluateIssueVars bIssue issueVars strTTY))
        (fun issue => Done (Some (revertColorEscaping issue))))
  end.

End EvaluateIssueVars.

(* ===================================================================== *)
(** * session.go: further notions for reading a run *)
(* ===================================================================== *)

(** The variable [key] holds, after [m], [F] of what it held before. *)
Definition updates {A} (key : string) (F : option string -> option string)
    (m : M A) : Prop :=
  forall st, environ (fst (m st)) !! key = F (environ st !! key).

(** What [setenvIfEmpty key value] makes of an entry. *)
Definition orDefault (value : string) (o : option string) : option string :=
  if String.eqb (default "" o) "" then Some value else o.

(** The name the policy announces for the desktop session (lines 148-154):
    the selection's own, else that of the selection it wraps. *)
Definition desktopSessionName (d : desktop) : string :=
  if negb (String.eqb (name d) "") then name d
  else match child d with
       | Some c => name c
       | None => ""
       end.

(** [strings.Join(pieces, sep)], the inverse of cutting at [sep]. *)
Fixpoint Join (pieces : list string) (sep : string) : string :=
  match pieces with
  | [] => ""
  | [piece] => piece
  | piece :: rest => piece ++ sep ++ Join rest sep
  end.

(** Whether the byte [c] occurs in [s]. *)
Fixpoint hasByte (c : ascii) (s : string) : bool :=
  match s with
  | EmptyString => false
  | String b s' => Ascii.eqb b c || hasByte c s'
  end.

Definition withDbus (b : bool) (st : State) : State :=
  {| environ := environ st; dbus := b; interrupted := interrupted st;
     files := files st; proc := proc st; trace := trace st |}.

Definition isWait (e : Event) : bool :=
  match e with EvWait => true | _ => false end.

(** The steps in the life of the child and of its accounting entry. *)
Definition isLifecycle (e : Event) : bool :=
  match e with
  | EvStart _ | EvWait | EvAddUtmp _ | EvEndUtmp _ | EvFinishCarrier => true
  | _ => false
  end.

(** The bus launcher's two calls and the child's start and wait. *)
Definition isBusOrChild (e : Event) : bool :=
  match e with
  | EvDbusLaunch | EvDbusInterrupt | EvStart _ | EvWait => true
  | _ => false
  end.

(** What [start] has arranged when it reaches [supervise] in the state
    [st] with the descriptor [session] for the command line [strExec]. *)
Definition launchReady (w : World) (usr : sysuser) (d : desktop) (conf : config)
    (session : Cmd) (strExec : string) (st : State) : Prop :=
  Uid session = uid usr /\ Gid session = gid usr /\ Dir session = homedir usr /\
  Stderr session =
    match initSessionErrorLogger w with
    | inl sessionErrLog => Some sessionErrLog
    | inr _ => None
    end /\
  (Args session = [] /\ Path session = strExec \/
   Path session = getLoginShell d /\ Args session = Split strExec space) /\
  (NoXdgFallback conf = false ->
   environ st !! envXdgSessionType = Some (sessionType w (env d))) /\
  (AlwaysDbusLaunch conf = true -> dbus st = true).

(** The preparation of lines 64-66 gets through on [incoming]:
    [defineEnvironment] returns, the family has a carrier and the carrier
    starts. *)
Definition prepared (w : World) (usr : sysuser) (d : desktop) (conf : config)
    (incoming : gmap string string) : Prop :=
  let r0 := defineEnvironment w usr d conf (initialState w incoming) in
  snd r0 = Val tt /\
  exists s, selectSession w d = Some s /\
            startCarrier s (environ (fst r0)) <> None.

(** The accounting entry of lines 98-103 for a session with the carrier
    [s] that ran as [r]. *)
Definition entryOf (w : World) (usr : sysuser) (conf : config) (s : session)
    (r : State * Res unit) : utmpEntry :=
  {| ut_user := username usr;
     ut_pid := if 0 <? getCarrierPid s then getCarrierPid s else childPid w;
     ut_line := strTTY conf;
     ut_host := lookupenv (environ (fst r)) envDisplay |}.

(* ===================================================================== *)
(** * More sample sessions and issue files *)
(* ===================================================================== *)

(** A configuration that asks for the bus launcher in every session. *)
Definition busConfig : config :=
  {| NoXdgFallback := false; AlwaysDbusLaunch := true;
     DbusLaunch := false; XinitrcLaunch := false;
     Lang := "en_US.UTF-8"; strTTY := "tty2" |}.

(** The child exits cleanly, the display server's teardown fails, and the
    interrupt arrives between the two reads of the flag. *)
Definition lateInterruptMachine : World :=
  machine ["/run/user/1000"] None ("i3", true) None
    None (Some "exit status 1") (Some BetweenChecks).

Definition archIssue : gostring := bytes "Arch \S{PRETTY_NAME} \r (\l)".

Definition archVars : list issueVariable :=
  [ {| issue := bytes "\S{PRETTY_NAME}"; char := "S"; arg := bytes "PRETTY_NAME" |};
    {| issue := bytes "\r"; char := "r"; arg := [] |};
    {| issue := bytes "\l"; char := "l"; arg := [] |} ].


(** An issue file without escape sequences, with blank lines at its end. *)
Definition plainIssue : gostring := (bytes "Welcome" ++ [newline; newline; newline])%list.

(* ===================================================================== *)
(** * Properties of printIssue's trimming loop *)
(* ===================================================================== *)

Section TrimIssue.

Local Open Scope list_scope.

Lemma gostring_eqb_eq (a b : gostring) : gostring_eqb a b = true <-> a = b.
Proof.
  revert b. induction a as [|x a IH]; intros [|y b]; simpl; try (split; congruence).
  rewrite andb_true_iff, IH. split.
  - intros [Hxy ->]. apply Byte.byte_dec_bl in Hxy. by subst.
  - intros [= -> ->]. split; [by apply Byte.byte_dec_lb | done].
Qed.

Lemma last_two (l : gostring) :
  (2 <= List.length l)%nat -> exists pre a b, l = pre ++ [a; b].
Proof.
  intros Hlen.
  destruct (exists_last (l:=l)) as (l1 & b & ->).
  { destruct l; [simpl in Hlen; lia | done]. }
  rewrite length_app in Hlen. simpl in Hlen.
  destruct (exists_last (l:=l1)) as (pre & a & ->).
  { destruct l1; [simpl in Hlen; lia | done]. }
  exists pre, a, b. by rewrite <- app_assoc.
Qed.

Lemma sliceFrom_last_two (pre : gostring) (a b : byte) :
  sliceFrom (pre ++ [a; b]) (len (pre ++ [a; b]) - 2) = Some [a; b].
Proof.
  unfold sliceFrom, len. rewrite length_app. simpl List.length.
  replace (Z.of_nat (List.length pre + 2) - 2) with (Z.of_nat (List.length pre)) by lia.
  rewrite Nat2Z.id.
  replace ((0 <=? _) && _) with true
    by (symmetry; apply andb_true_iff; split; apply Z.leb_le; lia).
  by rewrite drop_app_length.
Qed.

Lemma sliceTo_drop_last (pre : gostring) (a b : byte) :
  sliceTo (pre ++ [a; b]) (len (pre ++ [a; b]) - 1) = Some (pre ++ [a]).
Proof.
  unfold sliceTo, len. rewrite length_app. simpl List.length.
  replace (Z.of_nat (List.length pre + 2) - 1) with (Z.of_nat (List.length pre + 1)) by lia.
  rewrite Nat2Z.id.
  replace ((0 <=? _) && _) with true
    by (symmetry; apply andb_true_iff; split; apply Z.leb_le; lia).
  f_equal. replace (pre ++ [a; b]) with ((pre ++ [a]) ++ [b]) by by rewrite <- app_assoc.
  apply take_app_length'. rewrite length_app. simpl. lia.
Qed.

(** On a text shorter than two bytes the first evaluation of the loop
    condition already slices out of range. *)
Lemma trimLoop_short (fuel : nat) (issue : gostring) :
  (List.length issue < 2)%nat -> trimLoop (S fuel) issue = Panic.
Proof.
  intros Hlen. simpl. unfold sliceFrom, len.
  replace (0 <=? Z.of_nat (List.length issue) - 2) with false; [done |].
  symmetry. apply Z.leb_gt. lia.
Qed.

(** One round of the loop on a text of two bytes or more. *)
Lemma trimLoop_round (fuel : nat) (pre : gostring) (a b : byte) :
  trimLoop (S fuel) (pre ++ [a; b]) =
  if gostring_eqb [a; b] [newline; newline]
  then trimLoop fuel (pre ++ [a]) else Done (pre ++ [a; b]).
Proof.
  cbn [trimLoop]. rewrite sliceFrom_last_two.
  destruct (gostring_eqb [a; b] [newline; newline]); [|done].
  by rewrite sliceTo_drop_last.
Qed.

Lemma allNewlines_snoc (pre : gostring) (a : byte) :
  allNewlines (pre ++ [a; newline]) <-> allNewlines (pre ++ [a]).
Proof.
  unfold allNewlines. rewrite !Forall_app, !Forall_cons, !Forall_nil. tauto.
Qed.

(** With fuel beyond the length of the text the loop never runs dry, and
    it panics exactly on the texts that are too short or are nothing but
    newlines. *)
Lemma trimLoop_spec (fuel : nat) (issue : gostring) :
  (List.length issue < fuel)%nat ->
  trimLoop fuel issue <> OutOfFuel /\
  (trimLoop fuel issue = Panic <->
   (List.length issue < 2)%nat \/ allNewlines issue).
Proof.
  revert issue. induction fuel as [|fuel IH]; intros issue Hfuel; [lia |].
  destruct (Nat.lt_ge_cases (List.length issue) 2) as [Hshort | Hlong].
  { rewrite trimLoop_short by done. split; [done | tauto]. }
  destruct (last_two issue Hlong) as (pre & a & b & ->).
  rewrite trimLoop_round.
  destruct (gostring_eqb [a; b] [newline; newline]) eqn:Heq.
  - apply gostring_eqb_eq in Heq. injection Heq as -> ->.
    rewrite length_app in Hfuel. simpl in Hfuel.
    destruct (IH (pre ++ [newline])) as [Hfuel' Hpanic].
    { rewrite length_app. simpl. lia. }
    split; [done |]. rewrite Hpanic, allNewlines_snoc.
    rewrite !length_app. simpl. split.
    + intros [Hlen | Hall]; [|tauto]. right.
      destruct pre; [|simpl in Hlen; lia]. repeat constructor.
    + intros [Hlen | Hall]; [lia | tauto].
  - split; [done |]. split; [done |]. intros [Hlen | Hall]; [lia |].
    unfold allNewlines in Hall. rewrite Forall_app, !Forall_cons in Hall.
    destruct Hall as (_ & -> & -> & _). by simpl in Heq.
Qed.

(** The trimming always comes to an end: it returns or it panics. *)
Lemma trimTrailingBlankLines_total (issue : gostring) :
  trimTrailingBlankLines issue <> OutOfFuel.
Proof. apply trimLoop_spec. lia. Qed.

(** The texts on which the trimming is out of range. *)
Lemma trimTrailingBlankLines_panics_iff (issue : gostring) :
  trimTrailingBlankLines issue = Panic <->
  len issue < 2 \/ allNewlines issue.
Proof.
  unfold trimTrailingBlankLines, len.
  destruct (trimLoop_spec (S (List.length issue)) issue) as [_ ->]; [lia |].
  split; (intros [H | H]; [left; lia | by right]).
Qed.

(** Texts of length 0 or 1: [issue[len(issue)-2:]] is out of range, and so
    [printIssue] panics on every issue file that evaluates to one. *)
Lemma printIssue_short_panics (bIssue : gostring)
    (evaluate revert : gostring -> gostring) :
  len (evaluate bIssue) < 2 ->
  sliceFrom (evaluate bIssue) (len (evaluate bIssue) - 2) = None /\
  printIssue (Some bIssue) evaluate revert = Panic.
Proof.
  intros Hlen. split.
  - unfold sliceFrom. replace (0 <=? _) with false; [done |].
    symmetry. apply Z.leb_gt. lia.
  - unfold printIssue.
    replace (trimTrailingBlankLines (evaluate bIssue)) with (@Panic gostring); [done |].
    symmetry. apply trimTrailingBlankLines_panics_iff. by left.
Qed.

(** On a text of two bytes or more the slice expression, evaluated on that
    text, is in bounds and yields its last two bytes. *)
Lemma sliceFrom_in_bounds (issue : gostring) :
  2 <= len issue ->
  exists a b, sliceFrom issue (len issue - 2) = Some [a; b].
Proof.
  intros Hlen. destruct (last_two issue) as (pre & a & b & ->).
  { unfold len in Hlen. lia. }
  exists a, b. apply sliceFrom_last_two.
Qed.

(** C9.  A text of two newlines meets the stated precondition (its length
    is 2) and the first slice is in bounds, yet the loop shortens it to one
    byte and the second evaluation of [issue[len(issue)-2:]] is out of
    range: [printIssue] panics. *)
Theorem printIssue_two_newlines_panics :
  len [newline; newline] = 2 /\
  sliceFrom [newline; newline] (len [newline; newline] - 2) = Some [newline; newline] /\
  sliceTo [newline; newline] (len [newline; newline] - 1) = Some [newline] /\
  sliceFrom [newline] (len [newline] - 2) = None /\
  trimTrailingBlankLines [newline; newline] = Panic /\
  printIssue (Some [newline; newline]) (fun s => s) (fun s => s) = Panic.
Proof. repeat split. Qed.

End TrimIssue.

(* ===================================================================== *)
(** * Running the controller step by step *)
(* ===================================================================== *)

Section Running.

Lemma run_bind {A B} (m : M A) (k : A -> M B) (st st' : State) (a : A) :
  m st = (st', Val a) -> bind m k st = k a st'.
Proof. intros H. unfold bind. by rewrite H. Qed.

Lemma run_bind_stop {A B} (m : M A) (k : A -> M B) (st st' : State) (o : Abort) :
  m st = (st', Stop o) -> bind m k st = (st', Stop o).
Proof. intros H. unfold bind. by rewrite H. Qed.

(** ** Variables a computation does not write *)

Lemma keeps_ret {A} key (a : A) : keeps key (ret a).
Proof. done. Qed.

Lemma keeps_abort {A} key o : keeps key (@abort A o).
Proof. done. Qed.

Lemma keeps_gets {A} key (f : State -> A) : keeps key (gets f).
Proof. done. Qed.

Lemma keeps_emit key e : keeps key (emit e).
Proof. done. Qed.

Lemma keeps_setFiles key f : keeps key (setFiles f).
Proof. done. Qed.

Lemma keeps_setDbus key b : keeps key (setDbus b).
Proof. done. Qed.

Lemma keeps_bind {A B} key (m : M A) (k : A -> M B) :
  keeps key m -> (forall a, keeps key (k a)) -> keeps key (bind m k).
Proof.
  intros Hm Hk st. unfold bind. specialize (Hm st).
  destruct (m st) as [st' [a | o]]; simpl in *; [|done].
  by rewrite Hk.
Qed.

Lemma keeps_setenv key key' value : key' <> key -> keeps key (setenv key' value).
Proof. intros Hne st. simpl. by rewrite lookup_insert_ne. Qed.

Lemma keeps_setenvIfEmpty key key' value :
  key' <> key -> keeps key (setenvIfEmpty key' value).
Proof.
  intros Hne. apply keeps_bind; [apply keeps_gets |].
  intros cur. destruct (String.eqb cur ""); [by apply keeps_setenv | apply keeps_ret].
Qed.

Lemma keeps_handleErr key site err : keeps key (handleErr site err).
Proof.
  destruct err; [|apply keeps_ret].
  apply keeps_bind; [apply keeps_emit | intros; apply keeps_abort].
Qed.

Lemma keeps_osMkdirAll w key path : keeps key (osMkdirAll w path).
Proof.
  apply keeps_bind; [apply keeps_emit | intros _].
  destruct (MkdirAll w path); [apply keeps_ret |].
  apply keeps_bind; [apply keeps_gets | intros f].
  apply keeps_bind; [apply keeps_setFiles | intros; apply keeps_ret].
Qed.

End Running.

Create HintDb keeps.
#[local] Hint Resolve keeps_ret keeps_abort keeps_gets keeps_emit keeps_setFiles
  keeps_setDbus keeps_handleErr keeps_osMkdirAll : keeps.

Ltac keeps_step :=
  first
    [ apply keeps_setenv; intros E; vm_compute in E; discriminate E
    | apply keeps_setenvIfEmpty; intros E; vm_compute in E; discriminate E
    | apply keeps_bind; [|intros ?]
    | solve [unfold logPrint, getenv, fileExists; auto with keeps]
    | match goal with
      | |- keeps _ (createXdgFolder _ _ _) =>
          unfold createXdgFolder
      end
    | match goal with
      | |- keeps _ (if ?b then _ else _) => destruct b
      | |- keeps _ (match ?x with _ => _ end) => destruct x
      end ].

(* ===================================================================== *)
(** * Properties of defineEnvironment *)
(* ===================================================================== *)

Section EnvironmentPolicy.

Context (w : World) (usr : sysuser) (d : desktop) (conf : config).

(** C7.  With environment-fallback suppressed, [defineEnvironment] sets
    none of the config-home, runtime-dir, seat, session-class and
    desktop-session-name variables (nor the session type): each of these
    entries of the environment map, present or absent, is after the call
    what it was when the policy's first assignment ran. *)
Theorem defineEnvironment_fallback_suppressed (st : State) (key : string) :
  NoXdgFallback conf = true ->
  In key fallbackVariables ->
  environ (fst (defineEnvironment w usr d conf st)) !! key =
  defineSpecificEnvVariables w (environ st) !! key.
Proof.
  intros Hno Hkey. unfold defineEnvironment. rewrite Hno. simpl negb.
  erewrite run_bind by reflexivity.
  erewrite run_bind by reflexivity.
  match goal with
  | |- environ (fst (?m ?s)) !! _ = _ =>
      transitivity (environ s !! key); [|reflexivity]; generalize s
  end.
  change (keeps key
    (setenv envHome (homedir usr) ;; setenv envPwd (homedir usr) ;;
     setenv envUser (username usr) ;; setenv envLogname (username usr) ;;
     setenv envUid (strUid usr) ;; ret tt ;;
     setenv envShell (getShell usr) ;; setenvIfEmpty envLang (Lang conf) ;;
     setenvIfEmpty envPath (osGetenvPath w) ;; ret tt ;;
     logPrint "Defined Environment" ;; createXdgFolder w usr conf ;;
     pwd <- getenv envPwd ;; emit (EvChdir pwd))).
  unfold fallbackVariables in Hkey. simpl in Hkey.
  repeat (destruct Hkey as [<- | Hkey]; [repeat keeps_step |]); done.
Qed.

End EnvironmentPolicy.

(** ** The runtime directory *)

Section RuntimeDir.

Context (w : World) (usr : sysuser) (d : desktop) (conf : config).

Lemma environOnly_ret {A} (a : A) : environOnly (ret a).
Proof. intros [e b i f p t]. by exists e, a. Qed.

Lemma environOnly_gets {A} (g : State -> A) : environOnly (gets g).
Proof. intros [e b i f p t]. by eexists e, _. Qed.

Lemma environOnly_setEnviron e : environOnly (setEnviron e).
Proof. intros st. by exists e, tt. Qed.

Lemma environOnly_bind {A B} (m : M A) (k : A -> M B) :
  environOnly m -> (forall a, environOnly (k a)) -> environOnly (bind m k).
Proof.
  intros Hm Hk st. destruct (Hm st) as (e & a & Hrun).
  rewrite (run_bind _ _ _ _ _ Hrun).
  destruct (Hk a (withEnviron e st)) as (e' & b & ->). by exists e', b.
Qed.

Lemma environOnly_setenv key value : environOnly (setenv key value).
Proof.
  apply environOnly_bind; [apply environOnly_gets | intros; apply environOnly_setEnviron].
Qed.

Lemma environOnly_setenvIfEmpty key value : environOnly (setenvIfEmpty key value).
Proof.
  apply environOnly_bind; [apply environOnly_gets | intros cur].
  destruct (String.eqb cur ""); [apply environOnly_setenv | apply environOnly_ret].
Qed.

(** Running an environment-only step in front of [k]. *)
Lemma environOnly_then {A B} (m : M A) (k : A -> M B) (st : State) :
  environOnly m -> exists e a, bind m k st = k a (withEnviron e st).
Proof.
  intros Hm. destruct (Hm st) as (e & a & Hrun).
  exists e, a. by apply run_bind.
Qed.

End RuntimeDir.

Create HintDb environOnly.
#[local] Hint Resolve environOnly_ret environOnly_gets environOnly_setEnviron
  environOnly_setenv environOnly_setenvIfEmpty : environOnly.

Ltac environOnly_tac :=
  repeat first
    [ solve [auto with environOnly]
    | apply environOnly_bind; [|intros ?]
    | match goal with
      | |- environOnly (if ?b then _ else _) => destruct b
      | |- environOnly (match ?x with _ => _ end) => destruct x
      end ].

(** Runs the primitive steps at the front of the program. *)
Ltac run :=
  cbv [bind gets getenv fileExists logPrint emit ret abort setFiles setDbus
       setEnviron setProc setInterrupted withEnviron handleErr handleStrErr
       osMkdirAll fst snd environ files trace dbus interrupted proc negb].

(** Peels one environment-only step off the front of the running program. *)
Ltac policy_step :=
  match goal with
  | |- exists e, bind ?m ?k ?st = _ =>
      let H := fresh "H" in
      let e1 := fresh "e" in
      let a1 := fresh "a" in
      assert (H : environOnly m) by environOnly_tac;
      destruct (environOnly_then m k st H) as (e1 & a1 & ->);
      clear H; cbv beta
  end.

Section RuntimeDirProperties.

Context (w : World) (usr : sysuser) (d : desktop) (conf : config).

(** Up to its log line, [defineEnvironment] only edits the environment
    map; what follows runs on the state with the edited map. *)
Lemma defineEnvironment_shape (st : State) :
  exists e,
    defineEnvironment w usr d conf st =
    (logPrint "Defined Environment" ;;
     createXdgFolder w usr conf ;;
     pwd <- getenv envPwd ;;
     emit (EvChdir pwd)) (withEnviron e st).
Proof.
  unfold defineEnvironment.
  do 12 policy_step.
  eexists. reflexivity.
Qed.

Lemma lookupenv_kept {A} (m : M A) (key : string) (st : State) :
  keeps key m ->
  lookupenv (environ (fst (m st))) key = lookupenv (environ st) key.
Proof. intros H. unfold lookupenv. by rewrite H. Qed.

(** C4, as the code has it.  With XDG fallback not suppressed and the
    runtime directory absent, [defineEnvironment] calls [MkdirAll] on it.
    When that succeeds the directory exists, its ownership is handed to the
    target uid and gid, "Created XDG folder" is logged and the function
    returns.  When it fails the error goes to [handleErr]: it is surfaced
    as a failure and the program ends there, before any [Chown]. *)
Theorem defineEnvironment_creates_runtime_dir (st : State) :
  NoXdgFallback conf = false ->
  let r := defineEnvironment w usr d conf st in
  let dir := lookupenv (environ (fst r)) envXdgRuntimeDir in
  files st dir = false ->
  match MkdirAll w dir with
  | Some err =>
      snd r = Stop Exited /\
      trace (fst r) =
        EvFailure MkdirFailure err :: EvMkdirAll dir
        :: EvLog "Defined Environment" :: trace st
  | None =>
      snd r = Val tt /\
      trace (fst r) =
        EvChdir (lookupenv (environ (fst r)) envPwd)
        :: EvLog "Created XDG folder" :: EvChown dir (uid usr) (gid usr)
        :: EvMkdirAll dir :: EvLog "Defined Environment" :: trace st /\
      files (fst r) dir = true
  end.
Proof.
  intros Hno r dir. subst r dir.
  destruct (defineEnvironment_shape st) as [e ->].
  rewrite !lookupenv_kept by repeat keeps_step.
  destruct st as [e0 b i f p t].
  unfold createXdgFolder. rewrite Hno.
  run. intros Hdir. rewrite Hdir. run.
  destruct (MkdirAll w (lookupenv e envXdgRuntimeDir)) as [err|]; run.
  - done.
  - by rewrite String.eqb_refl.
Qed.

End RuntimeDirProperties.

Lemma defineEnvironment_creates_runtime_dir_witness :
  let st := initialState bareMachine ∅ in
  let r := defineEnvironment bareMachine alice compositor (tty2 false false) st in
  NoXdgFallback (tty2 false false) = false /\
  files st "/run/user/1000" = false /\
  snd r = Val tt /\
  trace (fst r) =
    [EvChdir "/home/alice"; EvLog "Created XDG folder";
     EvChown "/run/user/1000" 1000 1000; EvMkdirAll "/run/user/1000";
     EvLog "Defined Environment"] /\
  files (fst r) "/run/user/1000" = true.
Proof.
  split; [reflexivity |]. split; [reflexivity |].
  exact (defineEnvironment_creates_runtime_dir bareMachine alice compositor
           (tty2 false false) (initialState bareMachine ∅) eq_refl eq_refl).
Defined.

(** C4, as stated, fails: on a machine where the runtime directory is
    absent and cannot be created, the failure is not merely logged.  It is
    surfaced through [handleErr], [defineEnvironment] does not return, and
    the session attempt ends before the carrier is started. *)
Lemma runtime_dir_failure_is_fatal :
  let st := initialState readOnlyMachine ∅ in
  let r := defineEnvironment readOnlyMachine alice compositor (tty2 false false) st in
  NoXdgFallback (tty2 false false) = false /\
  files st "/run/user/1000" = false /\
  MkdirAll readOnlyMachine "/run/user/1000"
    = Some "mkdir /run/user/1000: read-only file system" /\
  snd r = Stop Exited /\
  trace (fst r) =
    [EvFailure MkdirFailure "mkdir /run/user/1000: read-only file system";
     EvMkdirAll "/run/user/1000"; EvLog "Defined Environment"] /\
  outcome (startSession readOnlyMachine alice compositor (tty2 false false) ∅)
    = Stop Exited /\
  history (startSession readOnlyMachine alice compositor (tty2 false false) ∅)
    = [EvLog "Defined Environment"; EvMkdirAll "/run/user/1000";
       EvFailure MkdirFailure "mkdir /run/user/1000: read-only file system"].
Proof. vm_compute. repeat split. Qed.

(* ===================================================================== *)
(** * Cutting a command line at spaces *)
(* ===================================================================== *)

Section SplitJoin.

Lemma Split_nonempty (s : string) (c : ascii) : Split s c <> [].
Proof.
  destruct s as [|b s]; simpl; [done |].
  destruct (Ascii.eqb b c); [done |]. by destruct (Split s c).
Qed.

Lemma Join_push (b : ascii) (piece : string) (rest : list string) (sep : string) :
  Join (String b piece :: rest) sep = String b (Join (piece :: rest) sep).
Proof. by destruct rest. Qed.

Lemma Join_empty_head (piece : string) (rest : list string) (sep : string) :
  Join ("" :: piece :: rest) sep = sep ++ Join (piece :: rest) sep.
Proof. done. Qed.

(** Cutting at [c] and joining with [c] gives the text back. *)
Lemma Join_Split (s : string) (c : ascii) :
  Join (Split s c) (String c EmptyString) = s.
Proof.
  induction s as [|b s IH]; simpl; [done |].
  pose proof (Split_nonempty s c) as Hne.
  destruct (Split s c) as [|piece rest]; [done |].
  destruct (Ascii.eqb b c) eqn:Hb.
  - apply Ascii.eqb_eq in Hb. subst b.
    rewrite Join_empty_head, IH. done.
  - by rewrite Join_push, IH.
Qed.

(** No piece contains the byte the text was cut at. *)
Lemma Split_pieces (s : string) (c : ascii) :
  Forall (fun piece => hasByte c piece = false) (Split s c).
Proof.
  induction s as [|b s IH]; simpl; [by repeat constructor |].
  destruct (Ascii.eqb b c) eqn:Hb; [by constructor |].
  pose proof (Split_nonempty s c) as Hne.
  destruct (Split s c) as [|piece rest]; [done |].
  inversion IH as [|? ? Hpiece Hrest]; subst. constructor; [|done].
  simpl. by rewrite Hb, Hpiece.
Qed.

End SplitJoin.

(* ===================================================================== *)
(** * Properties of prepareGuiCommand *)
(* ===================================================================== *)

Section GuiCommand.

Context (w : World) (usr : sysuser) (d : desktop) (conf : config).

(** C5, as the code has it.  [prepareGuiCommand] always returns a
    descriptor for the target user.  When the selection is a user's own
    ([isUser]) and its command disallows a startup prefix, or when the
    [.xinitrc] branch (line 183) forces shell wrapping, the descriptor runs
    the login shell on the command line cut at every space: the selection's
    command line, with the script path and a space in front of it in the
    [.xinitrc] branch.  The pieces joined by single spaces are that command
    line again, and no piece contains a space.  For every other selection
    the selection's command line is passed as one opaque string, without
    arguments. *)
Theorem prepareGuiCommand_execution_mode (st : State) :
  let exec := fst (getStrExec w d) in
  let allow := snd (getStrExec w d) in
  let xinitrc :=
    allow && XinitrcLaunch conf && enviroment_eqb (env d) Xorg
    && negb (Contains exec ".xinitrc") && files st (homedir usr ++ "/.xinitrc") in
  let wrapped := (isUser d && negb allow) || xinitrc in
  let line := if xinitrc then homedir usr ++ "/.xinitrc " ++ exec else exec in
  let cmd := if wrapped
             then cmdAsUser usr (environ st) (getLoginShell d) (Split line space)
             else cmdAsUser usr (environ st) line [] in
  (exists st', prepareGuiCommand w usr d conf st = (st', Val (cmd, line))) /\
  Uid cmd = uid usr /\ Gid cmd = gid usr /\ Dir cmd = homedir usr /\
  Env cmd = environ st /\
  (if wrapped
   then Path cmd = getLoginShell d /\ Args cmd = Split line space /\
        Args cmd <> [] /\ Join (Args cmd) " " = line /\
        Forall (fun piece => hasByte space piece = false) (Args cmd)
   else Path cmd = exec /\ Args cmd = [] /\ line = exec).
Proof.
  cbv zeta. unfold prepareGuiCommand.
  destruct (getStrExec w d) as [exec allow], st as [e b i f p t].
  cbn [fst snd]. run.
  destruct allow, (XinitrcLaunch conf), (enviroment_eqb (env d) Xorg),
    (Contains exec ".xinitrc"), (f (homedir usr ++ "/.xinitrc")),
    (DbusLaunch conf), (Contains exec "dbus-launch"), (isUser d);
    cbn; (split; [eexists; reflexivity |]);
    repeat split; auto using Split_nonempty, Join_Split, Split_pieces.
Qed.

(** C6, as the code has it.  For an Xorg session whose command allows a
    startup prefix, with [XinitrcLaunch] set in the configuration, an
    existing [.xinitrc] in the user's home and a command line that does not
    mention [.xinitrc]: the script path is put in front of the command line
    and the result is run through the login shell.  Nothing else changes. *)
Theorem prepareGuiCommand_xinitrc (st : State) :
  snd (getStrExec w d) = true ->
  XinitrcLaunch conf = true ->
  env d = Xorg ->
  Contains (fst (getStrExec w d)) ".xinitrc" = false ->
  files st (homedir usr ++ "/.xinitrc") = true ->
  let line := homedir usr ++ "/.xinitrc " ++ fst (getStrExec w d) in
  prepareGuiCommand w usr d conf st =
  (st, Val (cmdAsUser usr (environ st) (getLoginShell d) (Split line space), line)).
Proof.
  unfold prepareGuiCommand.
  destruct (getStrExec w d) as [exec allow], st as [e b i f p t].
  cbn [fst snd files]. intros -> Hconf Hxorg Hfresh Hfile. run.
  rewrite Hconf, Hxorg, Hfresh, Hfile. reflexivity.
Qed.

(** Without the configuration switch, or for a command that disallows a
    startup prefix, the [.xinitrc] branch is not taken and the command line
    stays as the selection gave it. *)
Lemma prepareGuiCommand_xinitrc_guarded (st : State) :
  snd (getStrExec w d) && XinitrcLaunch conf = false ->
  exists st' cmd,
    prepareGuiCommand w usr d conf st = (st', Val (cmd, fst (getStrExec w d))).
Proof.
  unfold prepareGuiCommand.
  destruct (getStrExec w d) as [exec allow], st as [e b i f p t].
  cbn [fst snd]. intros Hguard. run. rewrite Hguard. cbn.
  destruct (allow && DbusLaunch conf && (if Contains exec "dbus-launch" then false else true));
    by do 2 eexists.
Qed.

End GuiCommand.

Lemma prepareGuiCommand_xinitrc_witness :
  let st := initialState xinitrcMachine ∅ in
  snd (getStrExec xinitrcMachine windowManager) = true /\
  XinitrcLaunch (tty2 false true) = true /\
  env windowManager = Xorg /\
  Contains (fst (getStrExec xinitrcMachine windowManager)) ".xinitrc" = false /\
  files st (homedir alice ++ "/.xinitrc") = true /\
  prepareGuiCommand xinitrcMachine alice windowManager (tty2 false true) st =
  (st, Val (cmdAsUser alice ∅ "/bin/sh" ["/home/alice/.xinitrc"; "i3"],
            "/home/alice/.xinitrc i3")).
Proof.
  repeat (split; [reflexivity |]).
  exact (prepareGuiCommand_xinitrc xinitrcMachine alice windowManager
           (tty2 false true) (initialState xinitrcMachine ∅)
           eq_refl eq_refl eq_refl eq_refl eq_refl).
Defined.

(** C5, as stated, fails: a selection whose command disallows a startup
    prefix, but which is not a user's own, is not run through the login
    shell.  Its command line is passed as one string, spaces and all. *)
Lemma raw_session_not_shell_wrapped :
  let st := initialState rawMachine ∅ in
  snd (getStrExec rawMachine compositor) = false /\
  isUser compositor = false /\
  prepareGuiCommand rawMachine alice compositor (tty2 false false) st =
  (st, Val (cmdAsUser alice ∅ "weston --tty 2" [], "weston --tty 2")) /\
  "weston --tty 2" <> getLoginShell compositor /\
  Split "weston --tty 2" space = ["weston"; "--tty"; "2"].
Proof. repeat split; discriminate. Qed.

(** [Split] cuts at spaces only: a tab does not separate tokens and two
    spaces in a row leave an empty token. *)
Lemma Split_cuts_at_spaces_only :
  Split (String "a" (String (ascii_of_nat 9) (String "b" EmptyString))) space
    = [String "a" (String (ascii_of_nat 9) (String "b" EmptyString))] /\
  Split "a  b" space = ["a"; ""; "b"].
Proof. split; reflexivity. Qed.

(** C6, as stated, fails: for an Xorg session with an existing [.xinitrc]
    that the command line does not mention, nothing is prepended and the
    command is not shell-wrapped while [XinitrcLaunch] is off. *)
Lemma xinitrc_ignored_when_switched_off :
  let st := initialState xinitrcMachine ∅ in
  env windowManager = Xorg /\
  files st (homedir alice ++ "/.xinitrc") = true /\
  Contains (fst (getStrExec xinitrcMachine windowManager)) ".xinitrc" = false /\
  prepareGuiCommand xinitrcMachine alice windowManager (tty2 false false) st =
  (st, Val (cmdAsUser alice ∅ "i3" [], "i3")).
Proof. repeat split. Qed.

(* ===================================================================== *)
(** * The preparation leaves the supervised part untouched *)
(* ===================================================================== *)

Section Quiet.

Lemma quiet_ret {A} (a : A) : quiet (ret a).
Proof. by intros st. Qed.

Lemma quiet_abort {A} o : quiet (@abort A o).
Proof. by intros st. Qed.

Lemma quiet_gets {A} (f : State -> A) : quiet (gets f).
Proof. by intros st. Qed.

Lemma quiet_setEnviron e : quiet (setEnviron e).
Proof. by intros st. Qed.

Lemma quiet_setDbus b : quiet (setDbus b).
Proof. by intros st. Qed.

Lemma quiet_setFiles f : quiet (setFiles f).
Proof. by intros st. Qed.

Lemma quiet_emit e : isCore e = false -> quiet (emit e).
Proof.
  intros He st (Ht & Hi & Hp). repeat split; simpl; [|done..].
  by rewrite He.
Qed.

Lemma quiet_bind {A B} (m : M A) (k : A -> M B) :
  quiet m -> (forall a, quiet (k a)) -> quiet (bind m k).
Proof.
  intros Hm Hk st Hst. unfold bind. specialize (Hm st Hst).
  destruct (m st) as [st' [a | o]]; simpl in *; [by apply Hk | done].
Qed.

(** Running a quiet step in front of [k]: the program stops there, or [k]
    takes over in a state that is still pristine. *)
Lemma quiet_then {A B} (m : M A) (k : A -> M B) (st : State) :
  quiet m -> pristine st ->
  (exists st' o, bind m k st = (st', Stop o) /\ pristine st') \/
  (exists st' a, pristine st' /\ bind m k st = k a st').
Proof.
  intros Hm Hst. specialize (Hm st Hst). unfold bind.
  destruct (m st) as [st' [a | o]]; simpl in Hm; [right | left]; eauto.
Qed.

(** In a pristine state no event of the supervised part has happened. *)
Lemma pristine_filter (c : Event -> bool) (st : State) :
  (forall e, c e = true -> isCore e = true) ->
  pristine st -> List.filter c (trace st) = [].
Proof.
  intros Hc (Ht & _). induction (trace st) as [|e t IH]; [done |].
  simpl in *. destruct (isCore e) eqn:He; [done |].
  destruct (c e) eqn:Hce; [|by apply IH].
  apply Hc in Hce. congruence.
Qed.

End Quiet.

Create HintDb quiet.
#[local] Hint Resolve quiet_ret quiet_abort quiet_gets quiet_setEnviron
  quiet_setDbus quiet_setFiles : quiet.

Ltac quiet_tac :=
  repeat first
    [ solve [auto with quiet]
    | apply quiet_emit; reflexivity
    | apply quiet_bind; [|intros ?]
    | match goal with
      | |- quiet (if ?b then _ else _) => destruct b
      | |- quiet (match ?x with _ => _ end) => destruct x
      | |- quiet (let (_, _) := ?x in _) => destruct x
      end
    | progress unfold logPrint, getenv, fileExists, setenv, setenvIfEmpty,
        handleErr, osMkdirAll, createXdgFolder, defineEnvironment,
        callStartCarrier, prepareGuiCommand ].

Section QuietPreparation.

Context (w : World) (usr : sysuser) (d : desktop) (conf : config).

Lemma quiet_defineEnvironment : quiet (defineEnvironment w usr d conf).
Proof. quiet_tac. Qed.

Lemma quiet_callStartCarrier : quiet (callStartCarrier w d).
Proof. quiet_tac. Qed.

Lemma quiet_prepareGuiCommand : quiet (prepareGuiCommand w usr d conf).
Proof. quiet_tac. Qed.

(** The initial state is pristine. *)
Lemma pristine_initialState incoming : pristine (initialState w incoming).
Proof. by repeat split. Qed.

(** Every run of [start] stops during the preparation, with nothing of the
    supervised part done, or is a run of [supervise] from a pristine
    state under the deferred [Close], with a carrier behind the interface. *)
Lemma start_cases (st : State) :
  pristine st ->
  (exists st' o, start w usr d conf st = (st', Stop o) /\ pristine st') \/
  (exists st' session strExec s,
      pristine st' /\ selectSession w d = Some s /\
      start w usr d conf st =
      deferred (closeSessionErrLog w) (supervise w usr d conf session strExec) st').
Proof.
  intros Hst. unfold start.
  match goal with |- context [bind ?m ?k st] =>
    destruct (quiet_then m k st quiet_defineEnvironment Hst)
      as [(st1 & o & -> & H1) | (st1 & [] & H1 & ->)]; [left; eauto |]
  end.
  destruct (selectSession w d) as [s|] eqn:Hsel; cycle 1.
  { left. exists st1, Panicked. split; [|done].
    unfold callStartCarrier. by rewrite Hsel. }
  match goal with |- context [bind ?m ?k st1] =>
    destruct (quiet_then m k st1 quiet_callStartCarrier H1)
      as [(st2 & o & -> & H2) | (st2 & [] & H2 & ->)]; [left; eauto |]
  end.
  match goal with |- context [bind ?m ?k st2] =>
    destruct (quiet_then m k st2 ltac:(quiet_tac) H2)
      as [(st3 & o & -> & H3) | (st3 & [] & H3 & ->)]; [left; eauto |]
  end.
  match goal with |- context [bind ?m ?k st3] =>
    destruct (quiet_then m k st3 ltac:(quiet_tac) H3)
      as [(st4 & o & -> & H4) | (st4 & [] & H4 & ->)]; [left; eauto |]
  end.
  match goal with |- context [bind ?m ?k st4] =>
    destruct (quiet_then m k st4 quiet_prepareGuiCommand H4)
      as [(st5 & o & -> & H5) | (st5 & p & H5 & ->)]; [left; eauto |]
  end.
  match goal with |- context [bind ?m ?k st5] =>
    destruct (quiet_then m k st5 ltac:(quiet_tac) H5)
      as [(st6 & o & -> & H6) | (st6 & [] & H6 & ->)]; [left; eauto |]
  end.
  match goal with |- context [bind ?m ?k st6] =>
    destruct (quiet_then m k st6 ltac:(quiet_tac) H6)
      as [(st7 & o & -> & H7) | (st7 & session & H7 & ->)]; [left; eauto |]
  end.
  right. eauto 10.
Qed.

(** A property of finished runs holds of every session if it holds of a
    run that stops in a pristine state and of every supervised run. *)
Lemma start_rule (P : State * Res unit -> Prop) :
  (forall st o, pristine st -> P (st, Stop o)) ->
  (forall st session strExec s,
      pristine st -> selectSession w d = Some s ->
      P (deferred (closeSessionErrLog w) (supervise w usr d conf session strExec) st)) ->
  forall incoming, P (startSession w usr d conf incoming).
Proof.
  intros Hstop Hrun incoming. unfold startSession.
  destruct (start_cases _ (pristine_initialState incoming))
    as [(st' & o & -> & Hst') | (st' & session & strExec & s & Hst' & Hsel & ->)];
    eauto.
Qed.

End QuietPreparation.

(* ===================================================================== *)
(** * What the preparation hands to the supervised part *)
(* ===================================================================== *)

Section Launch.

Context (w : World) (usr : sysuser) (d : desktop) (conf : config).

(** What [prepareGuiCommand] returns and what it leaves behind. *)
Lemma prepareGuiCommand_run (st : State) :
  exists b cmd line,
    prepareGuiCommand w usr d conf st = (withDbus b st, Val (cmd, line)) /\
    (dbus st = true -> b = true) /\
    Uid cmd = uid usr /\ Gid cmd = gid usr /\ Dir cmd = homedir usr /\
    Env cmd = environ st /\ Stderr cmd = None /\
    (Args cmd = [] /\ Path cmd = line \/
     Path cmd = getLoginShell d /\ Args cmd = Split line space).
Proof.
  unfold prepareGuiCommand.
  destruct (getStrExec w d) as [exec allow], st as [e b i f p t].
  cbn [fst snd]. run.
  destruct allow, (XinitrcLaunch conf), (enviroment_eqb (env d) Xorg),
    (Contains exec ".xinitrc"), (f (homedir usr ++ "/.xinitrc")),
    (DbusLaunch conf), (Contains exec "dbus-launch"), (isUser d);
    cbn; eexists _, _, _; (split; [reflexivity |]); repeat split; auto.
Qed.



(** When the preparation gets through, the session is a run of
    [supervise] from a pristine state, with a carrier behind the
    interface. *)
Lemma start_prepared (incoming : gmap string string) :
  prepared w usr d conf incoming ->
  exists st session strExec s,
    startSession w usr d conf incoming =
    deferred (closeSessionErrLog w) (supervise w usr d conf session strExec) st /\
    pristine st /\ selectSession w d = Some s /\
    launchReady w usr d conf session strExec st.
Proof.
  intros (Hdef & s & Hsel & Hcar). unfold startSession, start.
  pose proof (quiet_defineEnvironment w usr d conf _
                (pristine_initialState w incoming)) as H1.
  destruct (defineEnvironment w usr d conf (initialState w incoming))
    as [st1 [[] | o]] eqn:Hrun; [|done].
  cbn [fst snd] in *. rewrite (run_bind _ _ _ _ _ Hrun).
  assert (Hc : exists st2, callStartCarrier w d st1 = (st2, Val tt) /\ pristine st2).
  { pose proof (quiet_callStartCarrier w d st1 H1) as H2. revert H2.
    unfold callStartCarrier. rewrite Hsel.
    erewrite run_bind by reflexivity. erewrite run_bind by reflexivity.
    cbn [environ]. destruct (startCarrier s (environ st1)); [|done].
    intros H2. by eexists. }
  destruct Hc as (st2 & Hc & H2). rewrite (run_bind _ _ _ _ _ Hc).
  unfold launchReady.
  destruct (NoXdgFallback conf), (AlwaysDbusLaunch conf); cbn [negb];
    do 2 erewrite run_bind by reflexivity;
    match goal with |- context [bind (prepareGuiCommand w usr d conf) ?k ?st4] =>
      destruct (prepareGuiCommand_run st4)
        as (b & cmd & line & Hgui & Hbus & Huid & Hgid & Hdir & Henv & Herr & Hmode);
      rewrite (run_bind _ _ _ _ _ Hgui)
    end;
    erewrite run_bind by reflexivity;
    destruct (initSessionErrorLogger w) as [file | err];
    erewrite run_bind by reflexivity;
    cbn [fst snd];
    destruct H2 as (Ht & Hi & Hp);
    eexists _, _, _, s; (split; [reflexivity |]);
    (split; [by repeat split |]); (split; [done |]);
    cbn; repeat split; auto; try done; try (intros _; apply lookup_insert_eq).
Qed.

Lemma prepared_rule (P : State * Res unit -> Prop) (incoming : gmap string string) :
  prepared w usr d conf incoming ->
  (forall st session strExec s,
      pristine st -> selectSession w d = Some s ->
      launchReady w usr d conf session strExec st ->
      P (deferred (closeSessionErrLog w) (supervise w usr d conf session strExec) st)) ->
  P (startSession w usr d conf incoming).
Proof.
  intros Hprep Hrun.
  destruct (start_prepared incoming Hprep)
    as (st & session & strExec & s & -> & Hst & Hsel & Hready).
  by eapply Hrun.
Qed.

End Launch.

(* ===================================================================== *)
(** * Properties of the supervised session *)
(* ===================================================================== *)

(** Unfolds the calls [supervise] makes. *)
Ltac supervised :=
  unfold deferred, closeSessionErrLog, supervise, yield, handleInterrupt,
    callStart, callFinishCarrier, callGetCarrierPid, processPid, callWait,
    addUtmpEntry, endUtmpEntry.

(** Runs the program, splitting on every answer of the world it meets. *)
Ltac crunch :=
  repeat (run; cbn [YieldPoint_eqb];
          match goal with
          | |- context [match ?x with _ => _ end] =>
              match x with
              | context [match _ with _ => _ end] => fail 1
              | _ => destruct x eqn:?
              end
          end).

(** Sets up a supervised run from a pristine state for [crunch]. *)
Ltac from_pristine Hst Hsel :=
  let Ht := fresh "Ht" in
  let Hi := fresh "Hi" in
  let Hp := fresh "Hp" in
  destruct Hst as (Ht & Hi & Hp);
  match type of Hp with
  | proc ?st = _ => destruct st; simpl in Ht, Hi, Hp; subst
  end;
  supervised; rewrite ?Hsel.

Section Supervised.

Context (w : World) (usr : sysuser) (d : desktop) (conf : config).

Lemma filter_history (c : Event -> bool) (r : State * Res unit) :
  List.filter c (history r) = rev (List.filter c (trace (fst r))).
Proof. apply filter_rev. Qed.

Lemma in_history_filter (c : Event -> bool) (r : State * Res unit) (e : Event) :
  In e (history r) -> c e = true -> In e (List.filter c (trace (fst r))).
Proof.
  intros Hin Hc. apply filter_In. split; [|done].
  by apply in_rev.
Qed.

(** The ledger of a session whose child has started. *)
Lemma entry_after_start (incoming : gmap string string) (cmd : Cmd) :
  let r := startSession w usr d conf incoming in
  In (EvStart cmd) (history r) -> sessionStart w = None ->
  exists s,
    selectSession w d = Some s /\
    List.filter isLedger (history r) =
      [EvAddUtmp (entryOf w usr conf s r); EvEndUtmp (entryOf w usr conf s r)] /\
    List.filter isAddUtmp (history r) = [EvAddUtmp (entryOf w usr conf s r)].
Proof.
  cbv zeta. intros Hin Hstarted.
  apply (in_history_filter isStart) in Hin; [|done].
  rewrite !filter_history. revert Hin. unfold entryOf. apply start_rule.
  - intros st o Hst. cbn [fst snd].
    by rewrite pristine_filter by (done || by intros []).
  - intros st session strExec s Hst Hsel.
    pose proof (pristine_filter isStart st ltac:(by intros []) Hst) as Hs.
    pose proof (pristine_filter isLedger st ltac:(by intros []) Hst) as Hl.
    pose proof (pristine_filter isAddUtmp st ltac:(by intros []) Hst) as Ha.
    from_pristine Hst Hsel. cbn [trace] in Hs, Hl, Ha.
    rewrite Hstarted. crunch.
    all: cbn; rewrite ?Hs, ?Hl, ?Ha; cbn.
    all: first [ by intros [] | intros _ ].
    all: exists s; split; [reflexivity |].
    all: repeat match goal with
         | H : (_ <=? _) = _ |- _ => revert H
         end; intros;
      destruct (0 <? getCarrierPid s) eqn:Hpos; try (by split); lia.
Qed.

(** The run of a session whose preparation gets through, whose child
    starts, and which is not interrupted before that: the child is started
    once, one entry is added and then ended, and the controller returns on
    the happy path and on the interrupted path. *)
Lemma ledger_when_prepared (incoming : gmap string string) :
  prepared w usr d conf incoming ->
  sigint w <> Some BeforeStart ->
  sessionStart w = None ->
  let r := startSession w usr d conf incoming in
  exists s cmd,
    selectSession w d = Some s /\
    List.filter isStart (history r) = [EvStart cmd] /\
    List.filter isLedger (history r) =
      [EvAddUtmp (entryOf w usr conf s r); EvEndUtmp (entryOf w usr conf s r)] /\
    List.filter isAddUtmp (history r) = [EvAddUtmp (entryOf w usr conf s r)] /\
    (sigint w = None /\ sessionWait w = None /\ finishCarrier s = None \/
     sigint w = Some ChildRunning \/ sigint w = Some ChildExited ->
     outcome r = Val tt).
Proof.
  intros Hprep Hsig Hstarted. cbv zeta. unfold outcome, entryOf.
  rewrite !filter_history. apply (prepared_rule w usr d conf); [done |].
  intros st session strExec s Hst Hsel _.
  pose proof (pristine_filter isLedger st ltac:(by intros []) Hst) as Hl.
  pose proof (pristine_filter isStart st ltac:(by intros []) Hst) as Hs.
  pose proof (pristine_filter isAddUtmp st ltac:(by intros []) Hst) as Ha.
  from_pristine Hst Hsel. cbn [trace] in Hl, Hs, Ha.
  rewrite Hstarted. crunch.
  all: cbn; rewrite ?Hl, ?Hs, ?Ha; cbn.
  all: try done.
  all: exists s; eexists; split; [reflexivity |]; split; [reflexivity |].
  all: repeat match goal with
       | H : (_ <=? _) = _ |- _ => revert H
       end; intros;
    destruct (0 <? getCarrierPid s) eqn:Hpos; try lia.
  all: repeat (split; [reflexivity |]).
  all: try (intros [(? & ? & ?) | [? | ?]]; congruence).
Qed.

(** C2.  After [startSession], as many accounting entries have been ended
    as were added, and never more than one.  A session whose child has
    started has added exactly one entry and then ended that same entry,
    whether the controller returns or ends the program over the exit
    status; a session whose child fails to start has added and ended none.
    When the preparation gets through, the child starts and no interrupt
    arrives before that, the one entry is added and ended, and on the
    happy path and on the interrupted path the controller returns. *)
Theorem utmp_entries_paired (incoming : gmap string string) :
  let r := startSession w usr d conf incoming in
  tally isAddUtmp r = tally isEndUtmp r /\
  (tally isAddUtmp r <= 1)%nat /\
  (List.filter isLedger (history r) = [] \/
   exists e, List.filter isLedger (history r) = [EvAddUtmp e; EvEndUtmp e]) /\
  (outcome r = Val tt ->
   exists e, List.filter isLedger (history r) = [EvAddUtmp e; EvEndUtmp e]) /\
  (sessionStart w <> None ->
   tally isAddUtmp r = 0%nat /\ tally isEndUtmp r = 0%nat) /\
  (forall cmd,
      In (EvStart cmd) (history r) -> sessionStart w = None ->
      exists e, List.filter isLedger (history r) = [EvAddUtmp e; EvEndUtmp e]) /\
  (prepared w usr d conf incoming ->
   sigint w <> Some BeforeStart ->
   sessionStart w = None ->
   exists s e,
     selectSession w d = Some s /\
     List.filter isLedger (history r) = [EvAddUtmp e; EvEndUtmp e] /\
     (sigint w = None /\ sessionWait w = None /\ finishCarrier s = None \/
      sigint w = Some ChildRunning \/ sigint w = Some ChildExited ->
      outcome r = Val tt)).
Proof.
  cbv zeta.
  assert (Hcount :
    let r := startSession w usr d conf incoming in
    tally isAddUtmp r = tally isEndUtmp r /\
    (tally isAddUtmp r <= 1)%nat /\
    (List.filter isLedger (history r) = [] \/
     exists e, List.filter isLedger (history r) = [EvAddUtmp e; EvEndUtmp e]) /\
    (outcome r = Val tt ->
     exists e, List.filter isLedger (history r) = [EvAddUtmp e; EvEndUtmp e]) /\
    (sessionStart w <> None ->
     tally isAddUtmp r = 0%nat /\ tally isEndUtmp r = 0%nat)).
  { cbv zeta. unfold outcome, tally. rewrite filter_history.
    apply start_rule.
    - intros st o Hst. cbn [fst snd].
      rewrite !pristine_filter by (done || by intros []).
      repeat split; try (by left); try done; simpl; lia.
    - intros st session strExec s Hst Hsel.
      pose proof (pristine_filter isAddUtmp st ltac:(by intros []) Hst) as Ha.
      pose proof (pristine_filter isEndUtmp st ltac:(by intros []) Hst) as He.
      pose proof (pristine_filter isLedger st ltac:(by intros []) Hst) as Hl.
      from_pristine Hst Hsel. cbn [trace] in Ha, He, Hl. crunch.
      all: cbn; rewrite ?Ha, ?He, ?Hl; cbn.
      all: repeat split; try done; try lia; eauto. }
  cbv zeta in Hcount.
  destruct Hcount as (Heq & Hle & Hshape & Hret & Hfail).
  repeat (split; [done |]). split.
  - intros cmd Hin Hstarted.
    destruct (entry_after_start incoming cmd Hin Hstarted)
      as (s & _ & Hledger & _).
    by eexists.
  - intros Hprep Hsig Hstarted.
    destruct (ledger_when_prepared incoming Hprep Hsig Hstarted)
      as (s & cmd & Hsel & _ & Hledger & _ & Hreturns).
    by exists s, (entryOf w usr conf s (startSession w usr d conf incoming)).
Qed.

Lemma isExitFailure_core (e : Event) : isExitFailure e = true -> isCore e = true.
Proof.
  destruct e; try done.
  match goal with s : FailureSite |- _ => by destruct s end.
Qed.

(** C1.  When the interrupt is delivered before the controller first
    reads [interrupted], no failure is surfaced for the child's exit status
    nor for the carrier's teardown, whatever [Wait] and [finishCarrier]
    answered. *)
Theorem interrupted_exit_not_surfaced (incoming : gmap string string) :
  interruptedBeforeEvaluation w ->
  let r := startSession w usr d conf incoming in
  List.filter isExitFailure (history r) = [] /\
  forall msg,
    ~ In (EvFailure RuntimeExit msg) (history r) /\
    ~ In (EvFailure CarrierExit msg) (history r).
Proof.
  intros Hsig. cbv zeta.
  assert (Hnone : List.filter isExitFailure
            (trace (fst (startSession w usr d conf incoming))) = []).
  { apply start_rule.
    - intros st o Hst. by apply pristine_filter; [apply isExitFailure_core |].
    - intros st session strExec s Hst Hsel.
      pose proof (pristine_filter isExitFailure st isExitFailure_core Hst) as Hf.
      from_pristine Hst Hsel. cbn [trace] in Hf.
      destruct Hsig as [Hsig | [Hsig | Hsig]]; rewrite Hsig; crunch;
        cbn; by rewrite ?Hf. }
  split; [by rewrite filter_history, Hnone |].
  intros msg. split; intros Hin;
    apply (in_history_filter isExitFailure) in Hin; try done;
    by rewrite Hnone in Hin.
Qed.

(** C3, as the code has it.  [finishCarrier] is invoked exactly as often
    as the controller calls [session.Start], which is at most once: once
    after the child exits, once when the child fails to start, and not at
    all on a run that ends before the child is started.  A session that
    returns has invoked it exactly once. *)
Theorem finishCarrier_once_per_start (incoming : gmap string string) :
  let r := startSession w usr d conf incoming in
  tally isFinishCarrier r = tally isStart r /\
  (tally isStart r <= 1)%nat /\
  (outcome r = Val tt -> tally isFinishCarrier r = 1%nat).
Proof.
  cbv zeta. unfold outcome, tally. apply start_rule.
  - intros st o Hst. cbn [fst snd].
    rewrite !pristine_filter by (done || by intros []).
    repeat split; try done; simpl; lia.
  - intros st session strExec s Hst Hsel.
    pose proof (pristine_filter isFinishCarrier st ltac:(by intros []) Hst) as Hf.
    pose proof (pristine_filter isStart st ltac:(by intros []) Hst) as Hs.
    from_pristine Hst Hsel. cbn [trace] in Hf, Hs. crunch.
    all: cbn; rewrite ?Hf, ?Hs; cbn.
    all: repeat split; try done; lia.
Qed.

(** C8.  Every accounting entry the controller adds is for the user and
    terminal of the session, and is keyed by the carrier's process id when
    that is positive and by the child's own process id otherwise.  Every
    session whose child has started adds exactly one such entry, whether
    or not the controller returns afterwards; and the child starts whenever
    the preparation gets through and no interrupt arrives before the
    start. *)
Theorem utmp_entry_pid (incoming : gmap string string) :
  sessionStart w = None ->
  let r := startSession w usr d conf incoming in
  (forall e,
      In (EvAddUtmp e) (history r) ->
      exists s,
        selectSession w d = Some s /\
        ut_pid e = (if 0 <? getCarrierPid s then getCarrierPid s else childPid w) /\
        ut_user e = username usr /\ ut_line e = strTTY conf) /\
  (outcome r = Val tt -> exists e, In (EvAddUtmp e) (history r)) /\
  (forall cmd,
      In (EvStart cmd) (history r) ->
      exists s e,
        selectSession w d = Some s /\
        List.filter isAddUtmp (history r) = [EvAddUtmp e] /\
        ut_pid e = (if 0 <? getCarrierPid s then getCarrierPid s else childPid w) /\
        ut_user e = username usr /\ ut_line e = strTTY conf) /\
  (prepared w usr d conf incoming ->
   sigint w <> Some BeforeStart ->
   exists s cmd,
     selectSession w d = Some s /\
     List.filter isStart (history r) = [EvStart cmd] /\
     List.filter isAddUtmp (history r) =
       [EvAddUtmp
          {| ut_user := username usr;
             ut_pid := if 0 <? getCarrierPid s then getCarrierPid s else childPid w;
             ut_line := strTTY conf;
             ut_host := lookupenv (environ (fst r)) envDisplay |}]).
Proof.
  intros Hstarted. cbv zeta.
  assert (Hadd :
    let r := startSession w usr d conf incoming in
    (List.filter isAddUtmp (trace (fst r)) = [] /\ snd r <> Val tt) \/
    exists s e,
      List.filter isAddUtmp (trace (fst r)) = [EvAddUtmp e] /\
      selectSession w d = Some s /\
      ut_pid e = (if 0 <? getCarrierPid s then getCarrierPid s else childPid w) /\
      ut_user e = username usr /\ ut_line e = strTTY conf).
  { cbv zeta. apply start_rule.
    - intros st o Hst. left. split; [|done].
      by apply pristine_filter; [intros [] |].
    - intros st session strExec s Hst Hsel.
      pose proof (pristine_filter isAddUtmp st ltac:(by intros []) Hst) as Ha.
      from_pristine Hst Hsel. cbn [trace] in Ha. rewrite Hstarted. crunch.
      all: cbn; rewrite ?Ha; cbn.
      all: try (left; split; [reflexivity | discriminate]).
      all: right; eexists s, _; split; [reflexivity |]; split; [reflexivity |];
        cbn; repeat split.
      all: repeat match goal with
           | H : (_ <=? _) = _ |- _ => revert H
           end; intros;
        destruct (0 <? getCarrierPid s) eqn:Hpos; try reflexivity; lia. }
  cbv zeta in Hadd. split; [|split; [|split]].
  - intros e Hin. apply (in_history_filter isAddUtmp) in Hin; [|done].
    destruct Hadd as [[Hnil _] | (s & e' & Hone & Hsel & Hpid & Husr & Htty)].
    + by rewrite Hnil in Hin.
    + rewrite Hone in Hin. destruct Hin as [[= <-] | []]. by exists s.
  - intros Hret. destruct Hadd as [[_ Hne] | (s & e & Hone & _)]; [done |].
    exists e. unfold history. apply in_rev. rewrite rev_involutive.
    apply (proj1 (filter_In isAddUtmp _ _)). rewrite Hone. by left.
  - intros cmd Hin.
    destruct (entry_after_start incoming cmd Hin Hstarted)
      as (s & Hsel & _ & Hentry).
    by exists s, (entryOf w usr conf s (startSession w usr d conf incoming)).
  - intros Hprep Hsig.
    destruct (ledger_when_prepared incoming Hprep Hsig Hstarted)
      as (s & cmd & Hsel & Hstart & _ & Hentry & _).
    by exists s, cmd.
Qed.

(** C10.  For a selection whose family is neither [Wayland] nor [Xorg] the
    embedded [session] stays nil, and [startSession] never returns: it ends
    in the nil dereference of the carrier-start dispatch, in the state that
    [defineEnvironment] left, unless [defineEnvironment] has already ended
    the program.  For the two known families the interface is not nil. *)
Theorem startSession_unknown_family (incoming : gmap string string) :
  env d <> Wayland -> env d <> Xorg ->
  selectSession w d = None /\
  let r := startSession w usr d conf incoming in
  let r0 := defineEnvironment w usr d conf (initialState w incoming) in
  outcome r <> Val tt /\
  match snd r0 with
  | Val _ => r = (fst r0, Stop Panicked)
  | Stop o => r = (fst r0, Stop o)
  end.
Proof.
  intros Hw Hx.
  assert (Hsel : selectSession w d = None).
  { unfold selectSession. by destruct (env d). }
  split; [done |]. cbv zeta. unfold outcome, startSession, start.
  destruct (defineEnvironment w usr d conf (initialState w incoming))
    as [st [[] | o]] eqn:Hdef; cbn [fst snd].
  - rewrite (run_bind _ _ _ _ _ Hdef).
    assert (Hnil : callStartCarrier w d st = (st, Stop Panicked)).
    { unfold callStartCarrier. by rewrite Hsel. }
    rewrite (run_bind_stop _ _ _ _ _ Hnil). by split.
  - rewrite (run_bind_stop _ _ _ _ _ Hdef). by split.
Qed.

Lemma selectSession_known_family :
  env d = Wayland \/ env d = Xorg -> selectSession w d <> None.
Proof. unfold selectSession. by intros [-> | ->]. Qed.

End Supervised.

(* ===================================================================== *)
(** * The properties on the sample sessions *)
(* ===================================================================== *)

Lemma defineEnvironment_fallback_suppressed_witness :
  let st := initialState bareMachine {[ envXdgRuntimeDir := "/tmp/run-alice" ]} in
  NoXdgFallback (tty2 true false) = true /\
  In envXdgRuntimeDir fallbackVariables /\
  environ (fst (defineEnvironment bareMachine alice compositor (tty2 true false) st))
    !! envXdgRuntimeDir =
  defineSpecificEnvVariables bareMachine (environ st) !! envXdgRuntimeDir.
Proof.
  split; [reflexivity |]. split; [simpl; tauto |].
  apply (defineEnvironment_fallback_suppressed bareMachine alice compositor
           (tty2 true false)); [reflexivity | simpl; tauto].
Defined.

Lemma interrupted_exit_not_surfaced_witness :
  interruptedBeforeEvaluation interruptedMachine /\
  let r := startSession interruptedMachine alice windowManager (tty2 false false) ∅ in
  List.filter isExitFailure (history r) = [] /\
  forall msg,
    ~ In (EvFailure RuntimeExit msg) (history r) /\
    ~ In (EvFailure CarrierExit msg) (history r).
Proof.
  split; [right; left; reflexivity |].
  apply (interrupted_exit_not_surfaced interruptedMachine alice windowManager
           (tty2 false false) ∅).
  right; left; reflexivity.
Defined.

(** The interrupted sample session: the child and the display server both
    report an error, the controller returns without surfacing either. *)
Lemma interrupted_session_returns :
  let r := startSession interruptedMachine alice windowManager (tty2 false false) ∅ in
  sessionWait interruptedMachine = Some "signal: interrupt" /\
  finishCarrier (xorgSession interruptedMachine) = Some "exit status 1" /\
  outcome r = Val tt /\
  List.filter isCore (history r) =
    [EvStart (cmdAsUser alice (environ (fst r)) "i3" []);
     EvAddUtmp {| ut_user := "alice"; ut_pid := 311; ut_line := "tty2"; ut_host := "" |};
     EvSignal 4242; EvWait; EvFinishCarrier;
     EvEndUtmp {| ut_user := "alice"; ut_pid := 311; ut_line := "tty2"; ut_host := "" |}].
Proof. vm_compute. repeat split. Qed.

(** The same session without the interrupt: the child's error is surfaced
    and ends the program, after the accounting entry has been ended. *)
Lemma uninterrupted_error_is_surfaced :
  let r := startSession failingMachine alice windowManager (tty2 false false) ∅ in
  outcome r = Stop Exited /\
  List.filter isExitFailure (history r) =
    [EvFailure RuntimeExit "Xorg session finished with error, please check logs"] /\
  tally isAddUtmp r = 1%nat /\ tally isEndUtmp r = 1%nat.
Proof. vm_compute. repeat split. Qed.

(** C3, as stated, fails: when the runtime directory cannot be created the
    controller ends in [defineEnvironment], and [finishCarrier] has not
    been invoked once but not at all. *)
Lemma finishCarrier_skipped_when_preparation_fails :
  let r := startSession readOnlyMachine alice compositor (tty2 false false) ∅ in
  outcome r = Stop Exited /\
  tally isFinishCarrier r = 0%nat /\
  tally isFinishCarrier r <> 1%nat /\
  history r =
    [EvLog "Defined Environment"; EvMkdirAll "/run/user/1000";
     EvFailure MkdirFailure "mkdir /run/user/1000: read-only file system"].
Proof. vm_compute. repeat split. discriminate. Qed.

(** Neither is it invoked for a family without carrier. *)
Lemma finishCarrier_skipped_for_unknown_family :
  let r := startSession bareMachine alice strayFamily (tty2 true false) ∅ in
  outcome r = Stop Panicked /\ tally isFinishCarrier r = 0%nat.
Proof. vm_compute. by split. Qed.

(** When the child fails to start, the carrier is stopped once and no
    accounting entry is written. *)
Lemma start_failure_stops_carrier_once :
  let m := machine ["/run/user/1000"] None ("sway", true)
             (Some "exec: sway: not found") None None None in
  let r := startSession m alice compositor (tty2 false false) ∅ in
  outcome r = Stop Exited /\
  List.filter isCore (history r) =
    [EvStart (cmdAsUser alice (environ (fst r)) "sway" []); EvFinishCarrier;
     EvFailure StartFailure "exec: sway: not found"].
Proof. vm_compute. by split. Qed.

Lemma prepared_bareMachine :
  prepared bareMachine alice compositor (tty2 false false) ∅.
Proof. split; [reflexivity |]. eexists. split; [reflexivity | discriminate]. Qed.

Lemma prepared_interruptedMachine :
  prepared interruptedMachine alice windowManager (tty2 false false) ∅.
Proof. split; [reflexivity |]. eexists. split; [reflexivity | discriminate]. Qed.

(** The happy path on the sample machine and the interrupted path on the
    machine whose child and display server both report an error: each
    returns, with one entry added and ended. *)
Lemma utmp_entries_paired_witness :
  (let r := startSession bareMachine alice compositor (tty2 false false) ∅ in
   prepared bareMachine alice compositor (tty2 false false) ∅ /\
   sigint bareMachine = None /\ sessionStart bareMachine = None /\
   sessionWait bareMachine = None /\
   outcome r = Val tt /\
   exists e, List.filter isLedger (history r) = [EvAddUtmp e; EvEndUtmp e]) /\
  (let r := startSession interruptedMachine alice windowManager (tty2 false false) ∅ in
   prepared interruptedMachine alice windowManager (tty2 false false) ∅ /\
   sigint interruptedMachine = Some ChildRunning /\
   sessionStart interruptedMachine = None /\
   sessionWait interruptedMachine <> None /\
   outcome r = Val tt /\
   exists e, List.filter isLedger (history r) = [EvAddUtmp e; EvEndUtmp e]).
Proof.
  split.
  - destruct (utmp_entries_paired bareMachine alice compositor (tty2 false false) ∅)
      as (_ & _ & _ & _ & _ & _ & Hrun).
    destruct (Hrun prepared_bareMachine ltac:(discriminate) eq_refl)
      as (s & e & Hsel & Hledger & Hreturns).
    injection Hsel as <-.
    split; [exact prepared_bareMachine |].
    split; [reflexivity |]. split; [reflexivity |]. split; [reflexivity |].
    split; [|by exists e]. apply Hreturns. left. by repeat split.
  - destruct (utmp_entries_paired interruptedMachine alice windowManager
                (tty2 false false) ∅)
      as (_ & _ & _ & _ & _ & _ & Hrun).
    destruct (Hrun prepared_interruptedMachine ltac:(discriminate) eq_refl)
      as (s & e & Hsel & Hledger & Hreturns).
    split; [exact prepared_interruptedMachine |].
    split; [reflexivity |]. split; [reflexivity |]. split; [discriminate |].
    split; [|by exists e]. apply Hreturns. right. by left.
Defined.

Lemma utmp_entry_pid_witness :
  sessionStart bareMachine = None /\
  prepared bareMachine alice compositor (tty2 false false) ∅ /\
  sigint bareMachine <> Some BeforeStart /\
  let r := startSession bareMachine alice compositor (tty2 false false) ∅ in
  exists cmd,
    List.filter isStart (history r) = [EvStart cmd] /\
    List.filter isAddUtmp (history r) =
      [EvAddUtmp {| ut_user := "alice"; ut_pid := 4242; ut_line := "tty2";
                    ut_host := "" |}].
Proof.
  split; [reflexivity |]. split; [exact prepared_bareMachine |].
  split; [discriminate |].
  destruct (utmp_entry_pid bareMachine alice compositor (tty2 false false) ∅ eq_refl)
    as (_ & _ & _ & Hrun).
  destruct (Hrun prepared_bareMachine ltac:(discriminate))
    as (s & cmd & Hsel & Hstart & Hentry).
  injection Hsel as <-. exists cmd. split; [exact Hstart | exact Hentry].
Defined.

(** The two families on the sample machine: the compositor's entry carries
    the child's pid, the X session's entry the display server's. *)
Lemma accounting_pid_samples :
  List.filter isAddUtmp
    (history (startSession bareMachine alice compositor (tty2 false false) ∅)) =
    [EvAddUtmp {| ut_user := "alice"; ut_pid := 4242; ut_line := "tty2"; ut_host := "" |}] /\
  List.filter isAddUtmp
    (history (startSession bareMachine alice windowManager (tty2 false false) ∅)) =
    [EvAddUtmp {| ut_user := "alice"; ut_pid := 311; ut_line := "tty2"; ut_host := "" |}].
Proof. vm_compute. by split. Qed.

Lemma startSession_unknown_family_witness :
  env strayFamily <> Wayland /\ env strayFamily <> Xorg /\
  selectSession bareMachine strayFamily = None /\
  let r := startSession bareMachine alice strayFamily (tty2 false false) ∅ in
  let r0 := defineEnvironment bareMachine alice strayFamily (tty2 false false)
              (initialState bareMachine ∅) in
  outcome r <> Val tt /\
  match snd r0 with
  | Val _ => r = (fst r0, Stop Panicked)
  | Stop o => r = (fst r0, Stop o)
  end.
Proof.
  split; [discriminate |]. split; [discriminate |].
  apply (startSession_unknown_family bareMachine alice strayFamily
           (tty2 false false) ∅); discriminate.
Defined.

(* ===================================================================== *)
(** * The environment policy, variable by variable *)
(* ===================================================================== *)

Section Updates.

Lemma updates_keeps {A} key (m : M A) : keeps key m -> updates key id m.
Proof. intros H st. apply H. Qed.

Lemma updates_setenv key value : updates key (fun _ => Some value) (setenv key value).
Proof. intros st. simpl. apply lookup_insert_eq. Qed.

Lemma updates_setenvIfEmpty key value :
  updates key (orDefault value) (setenvIfEmpty key value).
Proof.
  intros st. unfold setenvIfEmpty, orDefault, getenv, lookupenv.
  erewrite run_bind by reflexivity.
  destruct (String.eqb (default "" (environ st !! key)) ""); [|done].
  simpl. apply lookup_insert_eq.
Qed.

(** A step that always returns, followed by the rest. *)
Lemma updates_seq {A B} key F G (m : M A) (k : A -> M B) :
  environOnly m -> updates key F m -> (forall a, updates key G (k a)) ->
  updates key (G ∘ F) (bind m k).
Proof.
  intros Hret Hm Hk st. destruct (Hret st) as (e & a & Hrun).
  rewrite (run_bind _ _ _ _ _ Hrun). rewrite Hk. simpl.
  f_equal. specialize (Hm st). by rewrite Hrun in Hm.
Qed.

(** A step followed by a rest that leaves the variable alone. *)
Lemma updates_last {A B} key F (m : M A) (k : A -> M B) :
  updates key F m -> (forall a, keeps key (k a)) -> updates key F (bind m k).
Proof.
  intros Hm Hk st. unfold bind. specialize (Hm st).
  destruct (m st) as [st' [a | o]]; simpl in *; [|done].
  by rewrite Hk.
Qed.

Lemma updates_ext {A} key F G (m : M A) :
  updates key F m -> (forall o, F o = G o) -> updates key G m.
Proof. intros Hm HFG st. by rewrite Hm. Qed.

End Updates.

Ltac updates_tac :=
  lazymatch goal with
  | |- updates _ _ (bind _ _) =>
      first
        [ eapply updates_seq;
            [ solve [environOnly_tac] | updates_tac | intros ?; updates_tac ]
        | apply updates_keeps; solve [repeat keeps_step]
        | eapply updates_last;
            [ updates_tac | intros ?; solve [repeat keeps_step] ] ]
  | |- updates _ _ (if ?b then _ else _) => destruct b; updates_tac
  | |- updates _ _ (match ?x with _ => _ end) => destruct x; updates_tac
  | |- _ =>
      first
        [ apply updates_setenv
        | apply updates_setenvIfEmpty
        | apply updates_keeps; solve [repeat keeps_step] ]
  end.

(** Runs the platform hook at the front of [defineEnvironment] and reads
    the variable of the goal off the rest of the policy. *)
Ltac after_hook :=
  unfold defineEnvironment;
  erewrite run_bind by reflexivity;
  erewrite run_bind by reflexivity;
  match goal with
  | |- context [environ (fst (?m ?s)) !! ?key] =>
      let H := fresh "H" in
      eassert (H : updates key _ m) by updates_tac;
      rewrite (H s); clear H
  end;
  cbn [environ withEnviron fst snd compose id].

Section PolicyVariables.

Context (w : World) (usr : sysuser) (d : desktop) (conf : config).

(** X1.  Whatever the incoming environment holds, [defineEnvironment]
    leaves HOME and PWD at the user's home directory, USER and LOGNAME at
    the user name, UID at the user id and SHELL at the user's shell. *)
Theorem defineEnvironment_identity (st : State) :
  let e := environ (fst (defineEnvironment w usr d conf st)) in
  e !! envHome = Some (homedir usr) /\
  e !! envPwd = Some (homedir usr) /\
  e !! envUser = Some (username usr) /\
  e !! envLogname = Some (username usr) /\
  e !! envUid = Some (strUid usr) /\
  e !! envShell = Some (getShell usr).
Proof.
  cbv zeta. repeat split; after_hook; reflexivity.
Qed.

(** X2.  LANG and PATH are set only if empty: an incoming non-empty value
    survives, an absent or empty one is replaced by the configured locale,
    respectively by the PATH of the controller's own process. *)
Theorem defineEnvironment_lang_path (st : State) :
  let incoming := defineSpecificEnvVariables w (environ st) in
  let e := environ (fst (defineEnvironment w usr d conf st)) in
  lookupenv e envLang =
    (if String.eqb (lookupenv incoming envLang) "" then Lang conf
     else lookupenv incoming envLang) /\
  lookupenv e envPath =
    (if String.eqb (lookupenv incoming envPath) "" then osGetenvPath w
     else lookupenv incoming envPath).
Proof.
  cbv zeta. unfold lookupenv. split; after_hook; unfold orDefault;
    match goal with |- context [String.eqb ?x ""] => by destruct (String.eqb x "") end.
Qed.

(** X3.  With fallback not suppressed, the config-home, runtime-dir and
    seat variables keep a non-empty incoming value and otherwise get their
    defaults, and the session class is "user" whatever came in. *)
Theorem defineEnvironment_xdg_fallback (st : State) :
  NoXdgFallback conf = false ->
  let incoming := defineSpecificEnvVariables w (environ st) in
  let e := environ (fst (defineEnvironment w usr d conf st)) in
  lookupenv e envXdgConfigHome =
    (if String.eqb (lookupenv incoming envXdgConfigHome) ""
     then homedir usr ++ "/.config" else lookupenv incoming envXdgConfigHome) /\
  lookupenv e envXdgRuntimeDir =
    (if String.eqb (lookupenv incoming envXdgRuntimeDir) ""
     then "/run/user/" ++ strUid usr else lookupenv incoming envXdgRuntimeDir) /\
  lookupenv e envXdgSeat =
    (if String.eqb (lookupenv incoming envXdgSeat) ""
     then "seat0" else lookupenv incoming envXdgSeat) /\
  e !! envXdgSessionClass = Some "user".
Proof.
  intros Hno. cbv zeta. unfold lookupenv, defineEnvironment. rewrite Hno.
  cbn [negb]. repeat split; after_hook; try reflexivity; unfold orDefault;
    match goal with |- context [String.eqb ?x ""] => by destruct (String.eqb x "") end.
Qed.

(** X4.  With fallback not suppressed, DESKTOP_SESSION and
    XDG_SESSION_DESKTOP are both set to the selection's name, or to the
    name of its child selection when it has none of its own; when neither
    has a name the two variables are left as they came in. *)
Theorem defineEnvironment_desktop_session (st : State) :
  NoXdgFallback conf = false ->
  let incoming := defineSpecificEnvVariables w (environ st) in
  let e := environ (fst (defineEnvironment w usr d conf st)) in
  (desktopSessionName d <> "" ->
   e !! envDesktopSession = Some (desktopSessionName d) /\
   e !! envXdgSessDesktop = Some (desktopSessionName d)) /\
  (desktopSessionName d = "" ->
   e !! envDesktopSession = incoming !! envDesktopSession /\
   e !! envXdgSessDesktop = incoming !! envXdgSessDesktop).
Proof.
  intros Hno. cbv zeta. unfold desktopSessionName, defineEnvironment.
  rewrite Hno. cbn [negb].
  destruct (String.eqb (name d) "") eqn:Hname; cbn [negb].
  - destruct (child d) as [c|].
    + destruct (String.eqb (name c) "") eqn:Hchild; cbn [negb].
      * apply String.eqb_eq in Hchild. rewrite Hchild.
        split; [done |]. intros _. split; after_hook; reflexivity.
      * apply String.eqb_neq in Hchild.
        split; [|done]. intros _. split; after_hook; reflexivity.
    + split; [done |]. intros _. split; after_hook; reflexivity.
  - apply String.eqb_neq in Hname.
    split; [|done]. intros _. split; after_hook; reflexivity.
Qed.

End PolicyVariables.

(* ===================================================================== *)
(** * More properties of defineEnvironment and prepareGuiCommand *)
(* ===================================================================== *)

Section RuntimeDirMore.

Context (w : World) (usr : sysuser) (d : desktop) (conf : config).

(** After [defineEnvironment] PWD holds the home directory. *)
Lemma defineEnvironment_pwd (st : State) :
  lookupenv (environ (fst (defineEnvironment w usr d conf st))) envPwd = homedir usr.
Proof. unfold lookupenv. by after_hook. Qed.

(** X5.  [defineEnvironment] fails in one way only: fallback is not
    suppressed, the runtime directory is absent and [MkdirAll] on it
    fails.  The program then ends through [handleErr]. *)
Theorem defineEnvironment_stops_only_on_mkdir (st : State) (o : Abort) :
  let r := defineEnvironment w usr d conf st in
  snd r = Stop o ->
  let dir := lookupenv (environ (fst r)) envXdgRuntimeDir in
  o = Exited /\ NoXdgFallback conf = false /\
  files st dir = false /\ MkdirAll w dir <> None.
Proof.
  cbv zeta. destruct (defineEnvironment_shape w usr d conf st) as [e ->].
  rewrite !lookupenv_kept by repeat keeps_step.
  destruct st as [e0 b i f p t]. unfold createXdgFolder.
  destruct (NoXdgFallback conf); run; [done |].
  destruct (f (lookupenv e envXdgRuntimeDir)) eqn:Hdir; run; [done |].
  destruct (MkdirAll w (lookupenv e envXdgRuntimeDir)) as [err|]; run; [|done].
  by intros [= <-].
Qed.

(** A run of [defineEnvironment] that needs no directory. *)
Lemma defineEnvironment_no_mkdir (st : State) :
  let r := defineEnvironment w usr d conf st in
  let dir := lookupenv (environ (fst r)) envXdgRuntimeDir in
  NoXdgFallback conf = true \/ files st dir = true ->
  snd r = Val tt /\
  files (fst r) = files st /\
  trace (fst r) =
    EvChdir (homedir usr)
    :: (if NoXdgFallback conf then []
        else [EvLog "XDG folder already exists, no need to create"])
    ++ EvLog "Defined Environment" :: trace st.
Proof.
  cbv zeta. pose proof (defineEnvironment_pwd st) as Hpwd. revert Hpwd.
  destruct (defineEnvironment_shape w usr d conf st) as [e ->].
  rewrite !lookupenv_kept by repeat keeps_step.
  destruct st as [e0 b i f p t]. unfold createXdgFolder.
  cbn [environ withEnviron]. intros Hpwd.
  destruct (NoXdgFallback conf); run; [by rewrite Hpwd |].
  intros [[=] | Hdir]. rewrite Hdir. run. by rewrite Hpwd.
Qed.

(** X6.  When fallback is suppressed, or the runtime directory is already
    there, [defineEnvironment] returns without touching the filesystem:
    no [MkdirAll], no [Chown], the same paths exist as before.  Its last
    act is to change into the user's home directory. *)
Theorem defineEnvironment_leaves_filesystem (st : State) :
  let r := defineEnvironment w usr d conf st in
  let dir := lookupenv (environ (fst r)) envXdgRuntimeDir in
  NoXdgFallback conf = true \/ files st dir = true ->
  snd r = Val tt /\
  files (fst r) = files st /\
  trace (fst r) =
    EvChdir (homedir usr)
    :: (if NoXdgFallback conf then []
        else [EvLog "XDG folder already exists, no need to create"])
    ++ EvLog "Defined Environment" :: trace st.
Proof. apply defineEnvironment_no_mkdir. Qed.

(** The preparation gets through, whatever comes in, when fallback is
    suppressed, the family is one of the two known ones and its carrier
    starts on every environment. *)
Lemma prepared_without_fallback (incoming : gmap string string) (s : session) :
  NoXdgFallback conf = true ->
  selectSession w d = Some s ->
  (forall e, startCarrier s e <> None) ->
  prepared w usr d conf incoming.
Proof.
  intros Hno Hsel Hcar. split.
  - apply defineEnvironment_no_mkdir. by left.
  - exists s. by split.
Qed.

End RuntimeDirMore.

Section GuiCommandMore.

Context (w : World) (usr : sysuser) (d : desktop) (conf : config).

(** X7.  [prepareGuiCommand] changes nothing but the request for a bus
    launcher, and never withdraws one.  It makes the request exactly when
    the command allows a startup prefix, [DbusLaunch] is configured, the
    command line does not mention dbus-launch, and the [.xinitrc] branch
    is not taken. *)
Theorem prepareGuiCommand_bus_request (st : State) :
  let xinitrc :=
    snd (getStrExec w d) && XinitrcLaunch conf && enviroment_eqb (env d) Xorg
    && negb (Contains (fst (getStrExec w d)) ".xinitrc")
    && files st (homedir usr ++ "/.xinitrc") in
  let request :=
    negb xinitrc && snd (getStrExec w d) && DbusLaunch conf
    && negb (Contains (fst (getStrExec w d)) "dbus-launch") in
  fst (prepareGuiCommand w usr d conf st) = withDbus (dbus st || request) st.
Proof.
  unfold prepareGuiCommand.
  destruct (getStrExec w d) as [exec allow], st as [e b i f p t].
  cbn [fst snd]. run.
  destruct allow, (XinitrcLaunch conf), (enviroment_eqb (env d) Xorg),
    (Contains exec ".xinitrc"), (f (homedir usr ++ "/.xinitrc")),
    (DbusLaunch conf), (Contains exec "dbus-launch"), b; reflexivity.
Qed.

End GuiCommandMore.

(* ===================================================================== *)
(** * More properties of the supervised session *)
(* ===================================================================== *)

Section SupervisedMore.

Context (w : World) (usr : sysuser) (d : desktop) (conf : config).

(** X8.  When the preparation gets through and no interrupt arrives
    before the start, the child is started exactly once, with a descriptor
    for the target user: his uid and gid, his home as working directory,
    the environment map as the controller holds it, the session error log
    as standard error when one could be opened, and, unless fallback is
    suppressed, XDG_SESSION_TYPE set to the session type of the family. *)
Theorem child_descriptor (incoming : gmap string string) :
  prepared w usr d conf incoming ->
  sigint w <> Some BeforeStart ->
  let r := startSession w usr d conf incoming in
  exists cmd,
    List.filter isStart (history r) = [EvStart cmd] /\
    Uid cmd = uid usr /\ Gid cmd = gid usr /\ Dir cmd = homedir usr /\
    Env cmd = environ (fst r) /\
    Stderr cmd =
      match initSessionErrorLogger w with
      | inl sessionErrLog => Some sessionErrLog
      | inr _ => None
      end /\
    (NoXdgFallback conf = false ->
     Env cmd !! envXdgSessionType = Some (sessionType w (env d))).
Proof.
  intros Hprep Hsig. cbv zeta. rewrite filter_history.
  apply (prepared_rule w usr d conf); [done |].
  intros st session strExec s Hst Hsel
    (Huid & Hgid & Hdir & Herr & _ & Htype & _).
  pose proof (pristine_filter isStart st ltac:(by intros []) Hst) as Hs.
  from_pristine Hst Hsel. cbn [trace environ] in Hs, Htype. crunch.
  all: try done.
  all: cbn; rewrite ?Hs; cbn.
  all: eexists; split; [reflexivity |]; repeat split; auto.
Qed.

(** X9.  The life of the child and of its accounting entry always runs in
    this order: start; then, when the start failed, the carrier's stop and
    nothing more; otherwise the entry is added, the child is awaited, the
    carrier is stopped and only then the entry is ended.  A run that ends
    during the preparation has done none of it; a run whose preparation
    gets through, and which is not interrupted before the start, has. *)
Theorem session_lifecycle (incoming : gmap string string) :
  let r := startSession w usr d conf incoming in
  (List.filter isLifecycle (history r) = [] \/
   (exists cmd,
       sessionStart w <> None /\
       List.filter isLifecycle (history r) = [EvStart cmd; EvFinishCarrier]) \/
   (exists cmd e,
       sessionStart w = None /\
       List.filter isLifecycle (history r) =
         [EvStart cmd; EvAddUtmp e; EvWait; EvFinishCarrier; EvEndUtmp e])) /\
  (prepared w usr d conf incoming -> sigint w <> Some BeforeStart ->
   List.filter isLifecycle (history r) <> []).
Proof.
  cbv zeta. rewrite filter_history. split.
  - apply start_rule.
    + intros st o Hst. left. cbn [fst snd].
      by rewrite pristine_filter by (done || by intros []).
    + intros st session strExec s Hst Hsel.
      pose proof (pristine_filter isLifecycle st ltac:(by intros []) Hst) as Hl.
      from_pristine Hst Hsel. cbn [trace] in Hl. crunch.
      all: cbn; rewrite ?Hl; cbn.
      all: first [ by left
                 | right; left; eexists; split; [done | reflexivity]
                 | right; right; eexists _, _; split; [done | reflexivity] ].
  - intros Hprep Hsig. apply (prepared_rule w usr d conf); [done |].
    intros st session strExec s Hst Hsel _.
    pose proof (pristine_filter isLifecycle st ltac:(by intros []) Hst) as Hl.
    from_pristine Hst Hsel. cbn [trace] in Hl. crunch.
    all: try done.
    all: cbn; rewrite ?Hl; cbn; done.
Qed.

(** X10.  The bus launcher is launched at most once and only before the
    child is started; it is interrupted only after the child has been
    awaited, and exactly when it had been launched.  When the start fails
    it is not interrupted at all.  The child's start is among these steps
    whenever the preparation gets through and no interrupt arrives before
    it. *)
Theorem bus_launcher_order (incoming : gmap string string) :
  let r := startSession w usr d conf incoming in
  let bus := List.filter isBusOrChild (history r) in
  (bus = [] \/ bus = [EvDbusLaunch] \/
   (exists cmd, bus = [EvStart cmd]) \/
   (exists cmd, bus = [EvDbusLaunch; EvStart cmd]) \/
   (exists cmd, bus = [EvStart cmd; EvWait]) \/
   (exists cmd, bus = [EvDbusLaunch; EvStart cmd; EvWait; EvDbusInterrupt])) /\
  (prepared w usr d conf incoming -> sigint w <> Some BeforeStart ->
   exists cmd, In (EvStart cmd) bus) /\
  (forall cmd, In (EvStart cmd) bus -> sessionStart w <> None ->
   ~ In EvDbusInterrupt bus).
Proof.
  cbv zeta. rewrite filter_history. split; [|split].
  - apply start_rule.
    + intros st o Hst. left. cbn [fst snd].
      by rewrite pristine_filter by (done || by intros []).
    + intros st session strExec s Hst Hsel.
      pose proof (pristine_filter isBusOrChild st ltac:(by intros []) Hst) as Hb.
      from_pristine Hst Hsel. cbn [trace] in Hb. crunch.
      all: cbn; rewrite ?Hb; cbn.
      all: first [ by left | by right; left
                 | by right; right; left; eexists
                 | by right; right; right; left; eexists
                 | by right; right; right; right; left; eexists
                 | by right; right; right; right; right; eexists ].
  - intros Hprep Hsig. apply (prepared_rule w usr d conf); [done |].
    intros st session strExec s Hst Hsel _.
    pose proof (pristine_filter isBusOrChild st ltac:(by intros []) Hst) as Hb.
    from_pristine Hst Hsel. cbn [trace] in Hb. crunch.
    all: try done.
    all: cbn; rewrite ?Hb; cbn; eexists.
    all: first [ by left | by right; left ].
  - intros cmd Hin Hfail. revert Hin. apply start_rule.
    + intros st o Hst. cbn [fst snd].
      by rewrite pristine_filter by (done || by intros []).
    + intros st session strExec s Hst Hsel.
      pose proof (pristine_filter isBusOrChild st ltac:(by intros []) Hst) as Hb.
      from_pristine Hst Hsel. cbn [trace] in Hb. crunch.
      all: try done.
      all: cbn; rewrite ?Hb; cbn.
      all: intros _ Hint;
        repeat (destruct Hint as [Hint | Hint]; [discriminate Hint |]); done.
Qed.


(** X12.  Without an interrupt, once the child has started: an error
    from [Wait] is surfaced and ends the program, and the carrier's error
    is then not looked at; with a clean exit the carrier's error, if any,
    is surfaced and ends the program; with neither the session returns. *)
Theorem uninterrupted_exit (incoming : gmap string string) (s : session) :
  prepared w usr d conf incoming ->
  sessionStart w = None ->
  sigint w = None ->
  selectSession w d = Some s ->
  let r := startSession w usr d conf incoming in
  match sessionWait w, finishCarrier s with
  | Some _, _ =>
      outcome r = Stop Exited /\
      List.filter isExitFailure (history r) =
        [EvFailure RuntimeExit
           (envString w (env d) ++ " session finished with error, please check logs")]
  | None, Some _ =>
      outcome r = Stop Exited /\
      List.filter isExitFailure (history r) =
        [EvFailure CarrierExit
           (envString w (env d) ++ " finished with error, please check logs")]
  | None, None =>
      outcome r = Val tt /\ List.filter isExitFailure (history r) = []
  end.
Proof.
  intros Hprep Hstarted Hsig Hsel. cbv zeta.
  rewrite filter_history. unfold outcome.
  apply (prepared_rule w usr d conf); [done |].
  intros st session strExec s' Hst Hsel' _.
  assert (s' = s) as -> by congruence.
  pose proof (pristine_filter isExitFailure st isExitFailure_core Hst) as Hf.
  from_pristine Hst Hsel. cbn [trace] in Hf.
  rewrite Hsig, Hstarted. crunch.
  all: cbn; rewrite ?Hf; cbn; done.
Qed.

(** X13.  An interrupt that arrives between the two reads of [interrupted]
    comes too late for the child's error, which is surfaced, but in time
    for the carrier's: after a clean exit of the child the session returns
    whatever [finishCarrier] answered. *)
Theorem interrupt_between_checks (incoming : gmap string string) :
  prepared w usr d conf incoming ->
  sessionStart w = None ->
  sigint w = Some BetweenChecks ->
  let r := startSession w usr d conf incoming in
  match sessionWait w with
  | Some _ =>
      outcome r = Stop Exited /\
      List.filter isExitFailure (history r) =
        [EvFailure RuntimeExit
           (envString w (env d) ++ " session finished with error, please check logs")]
  | None =>
      outcome r = Val tt /\ List.filter isExitFailure (history r) = []
  end.
Proof.
  intros Hprep Hstarted Hsig. cbv zeta.
  rewrite filter_history. unfold outcome.
  apply (prepared_rule w usr d conf); [done |].
  intros st session strExec s Hst Hsel _.
  pose proof (pristine_filter isExitFailure st isExitFailure_core Hst) as Hf.
  from_pristine Hst Hsel. cbn [trace] in Hf.
  rewrite Hsig, Hstarted. crunch.
  all: cbn; rewrite ?Hf; cbn; done.
Qed.

End SupervisedMore.


(* ===================================================================== *)
(** * Properties of findUniqueIssueVars *)
(* ===================================================================== *)

Section ScanProperties.

Local Open Scope list_scope.

Lemma byte_eqb_eq (a b : byte) : Byte.eqb a b = true <-> a = b.
Proof.
  split; [apply Byte.byte_dec_bl | apply Byte.byte_dec_lb].
Qed.

Lemma byte_eqb_neq (a b : byte) : Byte.eqb a b = false <-> a <> b.
Proof.
  split.
  - intros H ->. assert (Byte.eqb b b = true) by by apply Byte.byte_dec_lb.
    congruence.
  - intros H. destruct (Byte.eqb a b) eqn:E; [|done].
    by apply byte_eqb_eq in E.
Qed.

Lemma byteAt_lookup (text : gostring) (k : nat) (b : byte) :
  text !! k = Some b -> byteAt text (Z.of_nat k) = Done b.
Proof.
  intros Hk. unfold byteAt, len. rewrite Nat2Z.id, Hk.
  apply lookup_lt_Some in Hk.
  replace ((0 <=? _) && _) with true; [done |].
  symmetry. apply andb_true_iff. split; [apply Z.leb_le | apply Z.ltb_lt]; lia.
Qed.

Lemma contains_spec (l : list gostring) (s : gostring) :
  contains l s = true <-> In s l.
Proof.
  unfold contains. rewrite existsb_exists. split.
  - intros (x & Hx & Heq). apply gostring_eqb_eq in Heq. by subst.
  - intros Hin. exists s. split; [done |]. by apply gostring_eqb_eq.
Qed.

(** The byte before position [k] is the last byte collected. *)
Lemma last_collected (text before buf : gostring) (k : nat) (x : byte) :
  (k < length text)%nat ->
  take (S k) text = before ++ buf ++ [x] -> text !! k = Some x.
Proof.
  intros Hk Htake.
  assert (Hlen : (length (take (S k) text) = length before + length buf + 1)%nat).
  { rewrite Htake, !length_app. simpl. lia. }
  rewrite length_take in Hlen.
  assert ((k = length before + length buf)%nat) as -> by lia.
  rewrite <- (lookup_take_lt text (S (length before + length buf))) by lia.
  rewrite Htake, app_assoc.
  rewrite lookup_app_r by (rewrite length_app; lia).
  rewrite length_app. by rewrite Nat.sub_diag.
Qed.

Lemma sequenceEnds_done (text : gostring) (k : nat) (b : byte) :
  (k < length text)%nat ->
  exists ends, sequenceEnds text (Z.of_nat k) b = Done ends.
Proof.
  intros Hk. unfold sequenceEnds, len.
  destruct (Z.of_nat k =? Z.of_nat (length text) - 1) eqn:Hlast; [by eexists |].
  apply Z.eqb_neq in Hlast.
  replace (Z.of_nat k <? Z.of_nat (length text)) with true
    by (symmetry; apply Z.ltb_lt; lia).
  destruct (0 <? Z.of_nat k) eqn:Hpos; cbn; [|by eexists].
  apply Z.ltb_lt in Hpos.
  destruct (lookup_lt_is_Some_2 text (k - 1)) as [prev Hprev]; [lia |].
  replace (Z.of_nat k - 1) with (Z.of_nat (k - 1)) by lia.
  rewrite (byteAt_lookup _ _ _ Hprev). cbn.
  destruct (Byte.eqb prev backslash); cbn; [|by eexists].
  destruct (lookup_lt_is_Some_2 text (S k)) as [next Hnext]; [lia |].
  replace (Z.of_nat k + 1) with (Z.of_nat (S k)) by lia.
  rewrite (byteAt_lookup _ _ _ Hnext). cbn.
  destruct (negb (Byte.eqb next lbrace)); by eexists.
Qed.

Lemma collect_inv (text : gostring) (k : nat) (st : scan) :
  recordsOK text st ->
  wellFormed (buffer st) (varName st) (argBuilder st) ->
  occursIn (buffer st) text ->
  scanInv text k (collect st).
Proof.
  intros (Hmap & Hdup & Hall) Hwf Hocc. unfold collect, scanInv.
  destruct (contains (knownIssues st) (buffer st)) eqn:Hknown; cbn.
  - by repeat (split; [done |]).
  - split; [by rewrite map_app, Hmap |]. split; [|split; [|done]].
    + apply NoDup_app. split; [done |]. split; [|apply NoDup_singleton].
      intros x Hx Hx'. apply list_elem_of_singleton in Hx'. subst x.
      apply list_elem_of_In, contains_spec in Hx. congruence.
    + apply Forall_app. split; [done |].
      constructor; [by split | constructor].
Qed.

(** The round at position [k], whose byte is [b]. *)
Lemma scanStep_inv (text : gostring) (k : nat) (b : byte) (st : scan) :
  text !! k = Some b ->
  scanInv text k st ->
  exists st', scanStep text (Z.of_nat k) st = Done st' /\ scanInv text (S k) st'.
Proof.
  intros Hb (Hmap & Hdup & Hall & Hbuf).
  assert (Hk : (k < length text)%nat) by by eapply lookup_lt_Some.
  assert (Htake : take (S k) text = take k text ++ [b]) by by apply take_S_r.
  destruct (sequenceEnds_done text k b Hk) as [ends Hends].
  unfold scanStep. rewrite (byteAt_lookup _ _ _ Hb). cbn [bindRun].
  unfold startSequence.
  destruct (Byte.eqb b backslash) eqn:Hslash.
  - (* a backslash: a new sequence starts here *)
    apply byte_eqb_eq in Hslash. subst b. cbn [saveData].
    assert (Hnote : exists name,
      noteByte text (Z.of_nat k) backslash
        {| result := result st; knownIssues := knownIssues st; saveData := true;
           buffer := []; varName := varName st; argBuilder := [] |} =
      Done {| result := result st; knownIssues := knownIssues st; saveData := true;
              buffer := []; varName := name; argBuilder := [] |}).
    { unfold noteByte. destruct (0 <? Z.of_nat k) eqn:Hpos; [|by eexists].
      apply Z.ltb_lt in Hpos.
      destruct (lookup_lt_is_Some_2 text (k - 1)) as [prev Hprev]; [lia |].
      replace (Z.of_nat k - 1) with (Z.of_nat (k - 1)) by lia.
      rewrite (byteAt_lookup _ _ _ Hprev). cbn.
      destruct (Byte.eqb prev backslash); by eexists. }
    destruct Hnote as [name ->]. cbn [bindRun]. rewrite Hends. cbn [bindRun].
    assert (Hwf : wellFormed [backslash] name []).
    { repeat split; [by constructor | by intros c rest [=]]. }
    destruct ends.
    + eexists. split; [done |]. apply collect_inv; [done | done |].
      exists (take k text), (drop (S k) text). cbn.
      by rewrite <- (take_drop (S k) text) at 1; rewrite Htake, <- app_assoc.
    + eexists. split; [done |]. repeat split; try done.
      by exists (take k text).
  - (* any other byte *)
    apply byte_eqb_neq in Hslash.
    destruct (saveData st) eqn:Hsave; cycle 1.
    { exists st. split; [done |]. unfold scanInv.
      repeat (split; [done |]). intros ?. congruence. }
    destruct (Hbuf eq_refl) as ((Hhead & Htail & Hname & Hargs) & before & Hbefore).
    destruct (buffer st) as [|b0 tl] eqn:Hbuffer; [done |].
    injection Hhead as ->. cbn [tail] in Htail.
    assert (Hpos : (0 < k)%nat).
    { destruct k; [|lia]. simpl in Hbefore. by destruct before. }
    (* the byte before this one is the last one collected *)
    assert (Hprev : text !! (k - 1)%nat = last (backslash :: tl)).
    { destruct (exists_last (l := backslash :: tl)) as (front & x & Hsplit); [done |].
      rewrite Hsplit, last_snoc. apply (last_collected text before front).
      - lia.
      - replace (S (k - 1)%nat) with k by lia. by rewrite Hbefore, Hsplit. }
    assert (Hnote : exists name args,
      noteByte text (Z.of_nat k) b st =
      Done {| result := result st; knownIssues := knownIssues st;
              saveData := saveData st; buffer := buffer st;
              varName := name; argBuilder := args |} /\
      wellFormed (buffer st ++ [b]) name args).
    { unfold noteByte.
      replace (0 <? Z.of_nat k) with true by (symmetry; apply Z.ltb_lt; lia).
      replace (Z.of_nat k - 1) with (Z.of_nat (k - 1)) by lia.
      destruct (last (backslash :: tl)) as [prev|] eqn:Hlast;
        [|by destruct tl using rev_ind; [|rewrite app_comm_cons, last_snoc in Hlast]].
      rewrite (byteAt_lookup _ _ _ Hprev). cbn [bindRun]. rewrite Hbuffer.
      destruct (Byte.eqb prev backslash) eqn:Hp.
      - (* the byte names the variable *)
        apply byte_eqb_eq in Hp. subst prev.
        assert (tl = []) as ->.
        { destruct tl as [|x tl] using rev_ind; [done |].
          rewrite app_comm_cons, last_snoc in Hlast. injection Hlast as ->.
          apply Forall_app in Htail as [_ Hx]. by inversion Hx. }
        eexists _, _. split; [done |].
        repeat split; cbn.
        + by repeat constructor.
        + by intros c rest [= <- _].
        + by rewrite Hargs.
      - (* the byte belongs to the argument *)
        apply byte_eqb_neq in Hp.
        destruct tl as [|c tl']; [by injection Hlast as <-|].
        assert (Hnot : negb (Byte.eqb b backslash) = true).
        { apply negb_true_iff. by apply byte_eqb_neq. }
        rewrite Hnot, andb_true_r.
        assert (Hwf : wellFormed ((backslash :: c :: tl') ++ [b]) (varName st)
                        (argBuilder st ++ List.filter notBrace [b])).
        { repeat split; cbn.
          - rewrite app_comm_cons. apply Forall_app. split; [done |].
            by repeat constructor.
          - intros c0 rest [= <- _]. by eapply Hname.
          - rewrite Hargs. cbn. rewrite !drop_0. by rewrite List.filter_app. }
        cbn [List.filter] in Hwf. unfold notBrace in Hwf.
        destruct (negb (Byte.eqb b lbrace) && negb (Byte.eqb b rbrace)).
        + eexists _, _. split; [done |]. done.
        + exists (varName st), (argBuilder st). split.
          * destruct st; cbn in *. by subst.
          * by rewrite app_nil_r in Hwf. }
    destruct Hnote as (name & args & -> & Hwf). cbn [bindRun].
    rewrite Hends. cbn [bindRun]. unfold writeByte. cbn.
    rewrite Hbuffer in Hwf.
    assert (Htake' : take (S k) text = before ++ (backslash :: tl) ++ [b]).
    { by rewrite Htake, Hbefore, <- app_assoc. }
    destruct ends.
    + eexists. split; [done |]. apply collect_inv; [done | by rewrite Hbuffer |].
      exists before, (drop (S k) text). cbn [buffer]. rewrite Hbuffer.
      by rewrite <- (take_drop (S k) text) at 1; rewrite Htake', <- !app_assoc.
    + eexists. split; [done |]. repeat split; try done; cbn; rewrite Hbuffer.
      * apply Hwf.
      * apply Hwf.
      * apply Hwf.
      * apply Hwf.
      * by exists before.
Qed.

Lemma scanInv_start (text : gostring) : scanInv text 0 scanStart.
Proof.
  unfold scanInv, scanStart. cbn. repeat split; try done; constructor.
Qed.

(** All rounds from position [k] on. *)
Lemma scanFrom_inv (text : gostring) (n k : nat) (st : scan) :
  (k + n = length text)%nat ->
  scanInv text k st ->
  exists st', scanFrom text n (Z.of_nat k) st = Done st' /\ recordsOK text st'.
Proof.
  revert k st. induction n as [|n IH]; intros k st Hlen Hinv.
  - exists st. split; [done |]. by destruct Hinv as (? & ? & ? & _).
  - destruct (lookup_lt_is_Some_2 text k) as [b Hb]; [lia |].
    destruct (scanStep_inv text k b st Hb Hinv) as (st1 & Hstep & Hinv1).
    cbn [scanFrom]. rewrite Hstep. cbn [bindRun].
    replace (Z.of_nat k + 1) with (Z.of_nat (S k)) by lia.
    apply IH; [lia | done].
Qed.

Lemma findUniqueIssueVars_spec (text : gostring) :
  exists vars,
    findUniqueIssueVars text = Done vars /\
    NoDup (map issue vars) /\
    Forall (fun v => occursIn (issue v) text /\
                     wellFormed (issue v) (char v) (arg v)) vars.
Proof.
  destruct (scanFrom_inv text (length text) 0 scanStart) as (st & Hrun & Hok);
    [lia | apply scanInv_start |].
  exists (result st). unfold findUniqueIssueVars.
  change (Z.of_nat 0) with 0 in Hrun. rewrite Hrun. cbn [bindRun].
  destruct Hok as (Hmap & Hdup & Hall). split; [done |]. by rewrite Hmap.
Qed.

(** X14.  [findUniqueIssueVars] never indexes its text out of range, not
    even with [issue[i+1]] on line 128: it returns a list on every text. *)
Theorem findUniqueIssueVars_returns (text : gostring) :
  exists vars, findUniqueIssueVars text = Done vars.
Proof.
  destruct (findUniqueIssueVars_spec text) as (vars & Hrun & _). by exists vars.
Qed.

(** X15.  The sequences returned by [findUniqueIssueVars] are pairwise
    different. *)
Theorem findUniqueIssueVars_unique (text : gostring) (vars : list issueVariable) :
  findUniqueIssueVars text = Done vars -> NoDup (map issue vars).
Proof.
  intros Hrun. destruct (findUniqueIssueVars_spec text) as (vars' & Hrun' & Hdup & _).
  rewrite Hrun in Hrun'. by injection Hrun' as ->.
Qed.

(** X16.  Every sequence returned by [findUniqueIssueVars] is a piece of
    the text that starts with a backslash and has no other backslash. *)
Theorem findUniqueIssueVars_sequences (text : gostring) (vars : list issueVariable)
    (v : issueVariable) :
  findUniqueIssueVars text = Done vars ->
  In v vars ->
  occursIn (issue v) text /\
  exists rest, issue v = backslash :: rest /\ Forall (fun b => b <> backslash) rest.
Proof.
  intros Hrun Hin.
  destruct (findUniqueIssueVars_spec text) as (vars' & Hrun' & _ & Hall).
  rewrite Hrun in Hrun'. injection Hrun' as <-.
  rewrite Forall_forall in Hall. apply list_elem_of_In, Hall in Hin.
  destruct Hin as (Hocc & Hhead & Htail & _). split; [done |].
  destruct (issue v) as [|b rest]; [done |]. injection Hhead as ->.
  by exists rest.
Qed.


(** ** Texts with and without a backslash *)

Lemma noteByte_frame (text : gostring) (i : Z) (b : byte) (st st' : scan) :
  noteByte text i b st = Done st' ->
  result st' = result st /\ knownIssues st' = knownIssues st /\
  saveData st' = saveData st.
Proof.
  unfold noteByte. destruct (0 <? i); [|by intros [= <-]].
  destruct (byteAt text (i - 1)) as [prev| |]; cbn [bindRun]; [|done..].
  destruct (Byte.eqb prev backslash); [by intros [= <-] |].
  destruct (_ && _); by intros [= <-].
Qed.

(** At the last byte of the text a sequence under collection ends. *)
Lemma sequenceEnds_last (text : gostring) (k : nat) (b : byte) :
  S k = length text -> sequenceEnds text (Z.of_nat k) b = Done true.
Proof.
  intros Hk. unfold sequenceEnds, len.
  replace (Z.of_nat k =? Z.of_nat (length text) - 1) with true; [done |].
  symmetry. apply Z.eqb_eq. lia.
Qed.

Lemma collect_records (st : scan) :
  map issue (result st) = knownIssues st ->
  result (collect st) <> [] /\ saveData (collect st) = false.
Proof.
  intros Hmap. unfold collect.
  destruct (contains (knownIssues st) (buffer st)) eqn:Hknown; cbn.
  - split; [|done]. apply contains_spec in Hknown. rewrite <- Hmap in Hknown.
    by destruct (result st).
  - split; [|done]. by destruct (result st).
Qed.

(** The rest of a round once a sequence is under collection (lines
    120-135). *)
Lemma collecting_seen (text : gostring) (k : nat) (b : byte) (st st' : scan) :
  saveData st = true ->
  map issue (result st) = knownIssues st ->
  bindRun (noteByte text (Z.of_nat k) b st) (fun st1 =>
    bindRun (sequenceEnds text (Z.of_nat k) b) (fun ends =>
      if ends then Done (collect (writeByte b st1))
      else Done (writeByte b st1))) = Done st' ->
  (result st' <> [] \/ saveData st' = true) /\
  (S k = length text -> saveData st' = false).
Proof.
  intros Hsave Hmap Hrun.
  destruct (noteByte text (Z.of_nat k) b st) as [st1| |] eqn:Hnote; [|done..].
  apply noteByte_frame in Hnote as (Hres & Hknown & Hsave1). cbn [bindRun] in Hrun.
  destruct (sequenceEnds text (Z.of_nat k) b) as [ends| |] eqn:Hends; [|done..].
  cbn [bindRun] in Hrun.
  assert (Hmap1 : map issue (result (writeByte b st1)) = knownIssues (writeByte b st1)).
  { cbn. by rewrite Hres, Hknown. }
  destruct ends; injection Hrun as <-.
  - destruct (collect_records _ Hmap1) as [Hne Hoff]. split; [by left | done].
  - split; [right; cbn; congruence |]. intros Hlast.
    rewrite (sequenceEnds_last _ _ _ Hlast) in Hends. done.
Qed.

(** What a round does to the record of backslashes seen so far. *)
Lemma scanStep_seen (text : gostring) (k : nat) (b : byte) (st st' : scan) :
  text !! k = Some b ->
  map issue (result st) = knownIssues st ->
  scanStep text (Z.of_nat k) st = Done st' ->
  (In backslash (take k text) -> result st <> [] \/ saveData st = true) ->
  (~ In backslash (take k text) -> result st = [] /\ saveData st = false) ->
  (In backslash (take (S k) text) -> result st' <> [] \/ saveData st' = true) /\
  (~ In backslash (take (S k) text) -> result st' = [] /\ saveData st' = false) /\
  (S k = length text -> saveData st' = false).
Proof.
  intros Hb Hmap Hstep Hseen Hplain.
  rewrite (take_S_r _ _ _ Hb). setoid_rewrite in_app_iff.
  unfold scanStep in Hstep. rewrite (byteAt_lookup _ _ _ Hb) in Hstep.
  cbn [bindRun] in Hstep. unfold startSequence in Hstep.
  destruct (Byte.eqb b backslash) eqn:Hslash.
  - apply byte_eqb_eq in Hslash. subst b. cbn [saveData] in Hstep.
    apply collecting_seen in Hstep as [Hrec Hoff]; [|done..].
    split; [done |]. split; [|done]. intros Hnot. exfalso. apply Hnot.
    right. by left.
  - apply byte_eqb_neq in Hslash.
    destruct (saveData st) eqn:Hsave.
    + apply collecting_seen in Hstep as [Hrec Hoff]; [|done..].
      split; [done |]. split; [|done]. intros Hnot.
      destruct Hplain as [_ Hfalse]; [tauto | done].
    + injection Hstep as <-. split; [|split; [|done]].
      * intros [Hin | [Heq | []]]; [|done]. destruct (Hseen Hin); [by left | done].
      * intros Hnot. rewrite Hsave. apply Hplain. tauto.
Qed.

Lemma scanFrom_seen (text : gostring) (n k : nat) (st : scan) :
  (k + n = length text)%nat ->
  scanInv text k st ->
  (In backslash (take k text) -> result st <> [] \/ saveData st = true) ->
  (~ In backslash (take k text) -> result st = [] /\ saveData st = false) ->
  (k = length text -> saveData st = false) ->
  exists st', scanFrom text n (Z.of_nat k) st = Done st' /\
              (In backslash text <-> result st' <> []).
Proof.
  revert k st. induction n as [|n IH]; intros k st Hlen Hinv Hseen Hplain Hoff.
  - exists st. split; [done |].
    assert (k = length text) as -> by lia. rewrite firstn_all in Hseen, Hplain.
    split.
    + intros Hin. destruct (Hseen Hin); [done |]. rewrite Hoff in *; done.
    + intros Hne. destruct (in_dec Byte.byte_eq_dec backslash text) as [|Hnot]; [done |].
      by destruct (Hplain Hnot).
  - destruct (lookup_lt_is_Some_2 text k) as [b Hb]; [lia |].
    destruct (scanStep_inv text k b st Hb Hinv) as (st1 & Hstep & Hinv1).
    destruct (scanStep_seen text k b st st1 Hb) as (Hseen1 & Hplain1 & Hoff1);
      [by destruct Hinv | done..|].
    cbn [scanFrom]. rewrite Hstep. cbn [bindRun].
    replace (Z.of_nat k + 1) with (Z.of_nat (S k)) by lia.
    apply IH; [lia | done..].
Qed.

Lemma findUniqueIssueVars_nil_iff (text : gostring) :
  findUniqueIssueVars text = Done [] <-> ~ In backslash text.
Proof.
  destruct (scanFrom_seen text (length text) 0 scanStart) as (st & Hrun & Hiff);
    [lia | apply scanInv_start | by intros [] | done | done |].
  unfold findUniqueIssueVars. change (Z.of_nat 0) with 0 in Hrun.
  rewrite Hrun. cbn [bindRun]. split.
  - intros [= Hnil] Hin. by apply Hiff in Hin.
  - intros Hnot. f_equal. destruct (result st); [done |].
    exfalso. apply Hnot, Hiff. done.
Qed.

(** X18.  [findUniqueIssueVars] returns no variable exactly on the texts
    without a backslash. *)
Theorem findUniqueIssueVars_empty_iff (text : gostring) :
  findUniqueIssueVars text = Done [] <-> ~ In backslash text.
Proof. apply findUniqueIssueVars_nil_iff. Qed.

End ScanProperties.

(* ===================================================================== *)
(** * Properties of the trimmed text *)
(* ===================================================================== *)

Section TrimResult.

Local Open Scope list_scope.

Lemma trimLoop_done (fuel : nat) (issue out : gostring) :
  trimLoop fuel issue = Done out ->
  (exists n, issue = out ++ repeat newline n) /\
  (exists pre a b, out = pre ++ [a; b] /\ [a; b] <> [newline; newline]).
Proof.
  revert issue. induction fuel as [|fuel IH]; intros issue Hrun; [done |].
  destruct (Nat.lt_ge_cases (List.length issue) 2) as [Hshort | Hlong].
  { by rewrite trimLoop_short in Hrun. }
  destruct (last_two issue Hlong) as (pre & a & b & ->).
  rewrite trimLoop_round in Hrun.
  destruct (gostring_eqb [a; b] [newline; newline]) eqn:Heq.
  - apply gostring_eqb_eq in Heq. injection Heq as -> ->.
    destruct (IH _ Hrun) as [[n Hn] Hout]. split; [|done].
    exists (S n).
    replace (repeat newline (S n)) with (repeat newline n ++ [newline])
      by (symmetry; apply repeat_cons).
    by rewrite app_assoc, <- Hn, <- app_assoc.
  - injection Hrun as <-. split; [exists O; by rewrite app_nil_r |].
    exists pre, a, b. split; [done |]. intros Hab.
    apply gostring_eqb_eq in Hab. congruence.
Qed.

(** X19.  When the trimming loop of [printIssue] returns, its result is
    the text without some newlines at its end, it has two bytes or more
    that are not both newlines at its end, and trimming it again changes
    nothing. *)
Theorem trimTrailingBlankLines_result (issue out : gostring) :
  trimTrailingBlankLines issue = Done out ->
  (exists n, issue = out ++ repeat newline n) /\
  (exists pre a b, out = pre ++ [a; b] /\ [a; b] <> [newline; newline]) /\
  trimTrailingBlankLines out = Done out.
Proof.
  intros Hrun. destruct (trimLoop_done _ _ _ Hrun) as [Hcut Hend].
  split; [done |]. split; [done |].
  destruct Hend as (pre & a & b & -> & Hab).
  unfold trimTrailingBlankLines. rewrite trimLoop_round.
  destruct (gostring_eqb [a; b] [newline; newline]) eqn:Heq; [|done].
  by apply gostring_eqb_eq in Heq.
Qed.

End TrimResult.

(* ===================================================================== *)
(** * Properties of evaluateIssueVars *)
(* ===================================================================== *)

Section EvaluateProperties.

Variable ask : nat -> issueSource -> gostring.
Variable ReplaceAll : gostring -> gostring -> gostring -> gostring.
Variable sortSlice :
  (issueVariable -> issueVariable -> bool) -> list issueVariable -> list issueVariable.
Variable revertColorEscaping : gostring -> gostring.

(** [sort.Slice] reorders the slice it is given. *)
Hypothesis sortSlice_permutes :
  forall less issueVars, Permutation (sortSlice less issueVars) issueVars.

Lemma evaluateLoop_unprocessed (n : nat) (issueVars : list issueVariable)
    (strTTY : string) (text : gostring) :
  (forall v, In v issueVars -> issueOutput v strTTY = None) ->
  evaluateLoop ask ReplaceAll n issueVars strTTY text = text.
Proof.
  revert n. induction issueVars as [|v rest IH]; intros n Hnone; [done |].
  cbn [evaluateLoop]. rewrite (Hnone v) by by left.
  apply IH. intros v' Hin. apply Hnone. by right.
Qed.

Lemma evaluateIssueVars_unchanged (text : gostring) (issueVars : list issueVariable)
    (strTTY : string) :
  (forall v, In v issueVars -> issueOutput v strTTY = None) ->
  evaluateIssueVars ask ReplaceAll sortSlice text issueVars strTTY = text.
Proof.
  intros Hnone. apply evaluateLoop_unprocessed. intros v Hin. apply Hnone.
  apply list_elem_of_In. rewrite <- (sortSlice_permutes longerArg issueVars).
  by apply list_elem_of_In.
Qed.


(** [printedIssue] is [printIssue] with the evaluation of line 89 filled
    in. *)
Lemma printedIssue_printIssue (bIssue : gostring) (issueVars : list issueVariable)
    (strTTY : string) :
  findUniqueIssueVars bIssue = Done issueVars ->
  printedIssue ask ReplaceAll sortSlice revertColorEscaping (Some bIssue) strTTY =
  printIssue (Some bIssue)
    (fun issue => evaluateIssueVars ask ReplaceAll sortSlice issue issueVars strTTY)
    revertColorEscaping.
Proof.
  intros Hvars. unfold printedIssue, printIssue. rewrite Hvars. cbn [bindRun].
  by destruct (trimTrailingBlankLines _).
Qed.

(** X21.  An issue file without a backslash is printed as it is, but for
    the trimming of the newlines at its end: no helper program is asked
    and nothing is replaced. *)
Theorem printedIssue_plain (text : gostring) (strTTY : string) :
  ~ In backslash text ->
  printedIssue ask ReplaceAll sortSlice revertColorEscaping (Some text) strTTY =
  bindRun (trimTrailingBlankLines text)
    (fun issue => Done (Some (revertColorEscaping issue))).
Proof.
  intros Hplain. unfold printedIssue.
  replace (findUniqueIssueVars text) with (Done (@nil issueVariable)).
  - cbn [bindRun]. by rewrite evaluateIssueVars_unchanged by by intros v [].
  - symmetry. by apply findUniqueIssueVars_nil_iff.
Qed.

End EvaluateProperties.

(* ===================================================================== *)
(** * The further properties on the sample sessions *)
(* ===================================================================== *)

Lemma prepared_failingMachine :
  prepared failingMachine alice windowManager (tty2 false false) ∅.
Proof. split; [reflexivity |]. eexists. split; [reflexivity | discriminate]. Qed.

Lemma prepared_lateInterruptMachine :
  prepared lateInterruptMachine alice windowManager (tty2 false false) ∅.
Proof. split; [reflexivity |]. eexists. split; [reflexivity | discriminate]. Qed.

Lemma defineEnvironment_xdg_fallback_witness :
  NoXdgFallback (tty2 false false) = false /\
  let st := initialState bareMachine {[ envXdgSeat := "seat1" ]} in
  let incoming := defineSpecificEnvVariables bareMachine (environ st) in
  let e := environ (fst (defineEnvironment bareMachine alice compositor
                           (tty2 false false) st)) in
  lookupenv e envXdgConfigHome =
    (if String.eqb (lookupenv incoming envXdgConfigHome) ""
     then homedir alice ++ "/.config" else lookupenv incoming envXdgConfigHome) /\
  lookupenv e envXdgRuntimeDir =
    (if String.eqb (lookupenv incoming envXdgRuntimeDir) ""
     then "/run/user/" ++ strUid alice else lookupenv incoming envXdgRuntimeDir) /\
  lookupenv e envXdgSeat =
    (if String.eqb (lookupenv incoming envXdgSeat) ""
     then "seat0" else lookupenv incoming envXdgSeat) /\
  e !! envXdgSessionClass = Some "user".
Proof.
  split; [reflexivity |].
  apply (defineEnvironment_xdg_fallback bareMachine alice compositor (tty2 false false)).
  reflexivity.
Defined.

Lemma defineEnvironment_desktop_session_witness :
  NoXdgFallback (tty2 false false) = false /\
  let st := initialState bareMachine ∅ in
  let incoming := defineSpecificEnvVariables bareMachine (environ st) in
  let e := environ (fst (defineEnvironment bareMachine alice compositor
                           (tty2 false false) st)) in
  (desktopSessionName compositor <> "" ->
   e !! envDesktopSession = Some (desktopSessionName compositor) /\
   e !! envXdgSessDesktop = Some (desktopSessionName compositor)) /\
  (desktopSessionName compositor = "" ->
   e !! envDesktopSession = incoming !! envDesktopSession /\
   e !! envXdgSessDesktop = incoming !! envXdgSessDesktop).
Proof.
  split; [reflexivity |].
  apply (defineEnvironment_desktop_session bareMachine alice compositor
           (tty2 false false)).
  reflexivity.
Defined.

Lemma defineEnvironment_stops_only_on_mkdir_witness :
  let st := initialState readOnlyMachine ∅ in
  let r := defineEnvironment readOnlyMachine alice compositor (tty2 false false) st in
  snd r = Stop Exited /\
  let dir := lookupenv (environ (fst r)) envXdgRuntimeDir in
  Exited = Exited /\ NoXdgFallback (tty2 false false) = false /\
  files st dir = false /\ MkdirAll readOnlyMachine dir <> None.
Proof.
  split; [reflexivity |].
  apply (defineEnvironment_stops_only_on_mkdir readOnlyMachine alice compositor
           (tty2 false false) (initialState readOnlyMachine ∅) Exited).
  reflexivity.
Defined.

Lemma defineEnvironment_leaves_filesystem_witness :
  let st := initialState bareMachine ∅ in
  let r := defineEnvironment bareMachine alice compositor (tty2 true false) st in
  let dir := lookupenv (environ (fst r)) envXdgRuntimeDir in
  (NoXdgFallback (tty2 true false) = true \/ files st dir = true) /\
  snd r = Val tt /\
  files (fst r) = files st /\
  trace (fst r) =
    EvChdir (homedir alice)
    :: (if NoXdgFallback (tty2 true false) then []
        else [EvLog "XDG folder already exists, no need to create"])
    ++ EvLog "Defined Environment" :: trace st.
Proof.
  split; [left; reflexivity |].
  apply (defineEnvironment_leaves_filesystem bareMachine alice compositor
           (tty2 true false) (initialState bareMachine ∅)).
  left; reflexivity.
Defined.

Lemma child_descriptor_witness :
  prepared bareMachine alice compositor (tty2 false false) ∅ /\
  sigint bareMachine <> Some BeforeStart /\
  let r := startSession bareMachine alice compositor (tty2 false false) ∅ in
  exists cmd,
    List.filter isStart (history r) = [EvStart cmd] /\
    Uid cmd = uid alice /\ Gid cmd = gid alice /\ Dir cmd = homedir alice /\
    Env cmd = environ (fst r) /\
    Stderr cmd =
      match initSessionErrorLogger bareMachine with
      | inl sessionErrLog => Some sessionErrLog
      | inr _ => None
      end /\
    (NoXdgFallback (tty2 false false) = false ->
     Env cmd !! envXdgSessionType = Some (sessionType bareMachine (env compositor))).
Proof.
  split; [exact prepared_bareMachine |]. split; [discriminate |].
  apply (child_descriptor bareMachine alice compositor (tty2 false false) ∅);
    [exact prepared_bareMachine | discriminate].
Defined.

(** The descriptor of the sample session. *)
Lemma child_descriptor_sample :
  let r := startSession bareMachine alice compositor (tty2 false false) ∅ in
  List.filter isStart (history r) =
    [EvStart (cmdAsUser alice (environ (fst r)) "sway" [])] /\
  environ (fst r) !! envXdgSessionType = Some "wayland".
Proof. vm_compute. by split. Qed.


(** The session of [busConfig] on the sample machine: the bus launcher
    brackets the child. *)
Lemma bus_launcher_sample :
  let r := startSession bareMachine alice compositor busConfig ∅ in
  List.filter isBusOrChild (history r) =
    [EvDbusLaunch; EvStart (cmdAsUser alice (environ (fst r)) "sway" []);
     EvWait; EvDbusInterrupt].
Proof. vm_compute. done. Qed.

Lemma uninterrupted_exit_witness :
  prepared failingMachine alice windowManager (tty2 false false) ∅ /\
  sessionStart failingMachine = None /\
  sigint failingMachine = None /\
  selectSession failingMachine windowManager = Some (xorgSession failingMachine) /\
  let r := startSession failingMachine alice windowManager (tty2 false false) ∅ in
  match sessionWait failingMachine, finishCarrier (xorgSession failingMachine) with
  | Some _, _ =>
      outcome r = Stop Exited /\
      List.filter isExitFailure (history r) =
        [EvFailure RuntimeExit
           (envString failingMachine (env windowManager)
            ++ " session finished with error, please check logs")]
  | None, Some _ =>
      outcome r = Stop Exited /\
      List.filter isExitFailure (history r) =
        [EvFailure CarrierExit
           (envString failingMachine (env windowManager)
            ++ " finished with error, please check logs")]
  | None, None =>
      outcome r = Val tt /\ List.filter isExitFailure (history r) = []
  end.
Proof.
  split; [exact prepared_failingMachine |].
  split; [reflexivity |]. split; [reflexivity |]. split; [reflexivity |].
  exact (uninterrupted_exit failingMachine alice windowManager (tty2 false false) ∅
           (xorgSession failingMachine) prepared_failingMachine
           eq_refl eq_refl eq_refl).
Defined.

Lemma interrupt_between_checks_witness :
  prepared lateInterruptMachine alice windowManager (tty2 false false) ∅ /\
  sessionStart lateInterruptMachine = None /\
  sigint lateInterruptMachine = Some BetweenChecks /\
  let r := startSession lateInterruptMachine alice windowManager (tty2 false false) ∅ in
  match sessionWait lateInterruptMachine with
  | Some _ =>
      outcome r = Stop Exited /\
      List.filter isExitFailure (history r) =
        [EvFailure RuntimeExit
           (envString lateInterruptMachine (env windowManager)
            ++ " session finished with error, please check logs")]
  | None =>
      outcome r = Val tt /\ List.filter isExitFailure (history r) = []
  end.
Proof.
  split; [exact prepared_lateInterruptMachine |].
  split; [reflexivity |]. split; [reflexivity |].
  exact (interrupt_between_checks lateInterruptMachine alice windowManager
           (tty2 false false) ∅ prepared_lateInterruptMachine eq_refl eq_refl).
Defined.

(** The late interrupt on the sample machine: the display server's error
    is dropped and the session returns. *)
Lemma late_interrupt_sample :
  let r := startSession lateInterruptMachine alice windowManager (tty2 false false) ∅ in
  finishCarrier (xorgSession lateInterruptMachine) = Some "exit status 1" /\
  outcome r = Val tt.
Proof. vm_compute. by split. Qed.

Lemma findUniqueIssueVars_unique_witness :
  findUniqueIssueVars archIssue = Done archVars /\
  NoDup (map issue archVars).
Proof.
  split; [reflexivity |].
  apply (findUniqueIssueVars_unique archIssue archVars). reflexivity.
Defined.

Lemma findUniqueIssueVars_sequences_witness :
  let v := {| issue := bytes "\S{PRETTY_NAME}"; char := "S";
              arg := bytes "PRETTY_NAME" |} in
  findUniqueIssueVars archIssue = Done archVars /\
  In v archVars /\
  occursIn (issue v) archIssue /\
  exists rest, issue v = backslash :: rest /\ Forall (fun b => b <> backslash) rest.
Proof.
  split; [reflexivity |]. split; [left; reflexivity |].
  apply (findUniqueIssueVars_sequences archIssue archVars);
    [reflexivity | left; reflexivity].
Defined.


Lemma trimTrailingBlankLines_result_witness :
  let out := (bytes "Welcome" ++ [newline])%list in
  trimTrailingBlankLines plainIssue = Done out /\
  (exists n, plainIssue = (out ++ repeat newline n)%list) /\
  (exists pre a b, out = (pre ++ [a; b])%list /\ [a; b] <> [newline; newline]) /\
  trimTrailingBlankLines out = Done out.
Proof.
  split; [reflexivity |].
  apply (trimTrailingBlankLines_result plainIssue). reflexivity.
Defined.


Lemma printedIssue_plain_witness :
  let ask := fun (_ : nat) (_ : issueSource) => bytes "tty2" in
  let ReplaceAll := fun (s old new : gostring) => new in
  let sortSlice := fun (_ : issueVariable -> issueVariable -> bool)
                       (issueVars : list issueVariable) => issueVars in
  let revertColorEscaping := fun (s : gostring) => s in
  (forall less issueVars, Permutation (sortSlice less issueVars) issueVars) /\
  ~ In backslash plainIssue /\
  printedIssue ask ReplaceAll sortSlice revertColorEscaping (Some plainIssue) "tty2" =
  bindRun (trimTrailingBlankLines plainIssue)
    (fun issue => Done (Some (revertColorEscaping issue))).
Proof.
  assert (Hperm : forall (less : issueVariable -> issueVariable -> bool)
                          (issueVars : list issueVariable),
             Permutation issueVars issueVars) by reflexivity.
  assert (Hplain : ~ In backslash plainIssue).
  { intros H. repeat (destruct H as [H | H]; [discriminate H |]). exact H. }
  split; [exact Hperm |]. split; [exact Hplain |].
  exact (printedIssue_plain _ _ _ _ Hperm plainIssue "tty2" Hplain).
Defined.

(** The sample issue file is printed with one newline at its end. *)
Lemma printedIssue_sample :
  printedIssue (fun _ _ => []) (fun s _ _ => s) (fun _ issueVars => issueVars)
    (fun s => s) (Some plainIssue) "tty2" =
  Done (Some (bytes "Welcome" ++ [newline])%list).
Proof. reflexivity. Qed.
